(** * redirectstatus: the status-intercepting response writer and its middleware

    A shallow embedding of [redirectstatus.go].  The Go objects become records
    that are passed along explicitly:

    - the real response writer [rw] is an [http.ResponseWriter]: the header map
      its [Header()] returns, the private state of whatever concrete type
      implements the interface, and the list of method invocations it has
      received so far;
    - the [codeCatcher] holds that writer in its [responseWriter] field, as the
      Go struct holds the interface value, so the writer [ServeHTTP] goes on
      with after the upstream handler returned is the one inside the catcher;
    - the upstream handler is a finite tree of calls on the writer it is given,
      whose continuations receive what the calls return. *)

From stdpp Require Import base option list gmap strings.
From Stdlib Require Import ZArith Lia.
From Stdlib.Strings Require String Byte.
From Stdlib.Strings Require Import Ascii.
From Stdlib.Init Require Import Byte.
From Stdlib.Numbers Require DecimalString.

Local Open Scope Z_scope.

(** ** Go built-ins *)

(** The [error] interface: a value with an [Error() string] method. *)
Inductive error := errorString (s : string).

Definition Error (err : error) : string :=
  match err with errorString s => s end.

(** [[]byte(s)]. *)
Definition bytes (s : string) : list byte := String.list_byte_of_string s.

(** [len(buf)]. *)
Definition len {A} (buf : list A) : Z := Z.of_nat (length buf).

(** The line feed, Go's ["\n"]. *)
Definition LF : string := String (Ascii.ascii_of_nat 10) EmptyString.

(** ** Package [strconv] *)

Module strconv.
(** [strconv.Itoa]: the decimal digits, after a minus sign for a negative
    number. *)
Definition Itoa (i : Z) : string :=
  DecimalString.NilZero.string_of_int (Z.to_int i).
End strconv.

(** ** Package [strings] *)

Module strings.
(** [strings.HasPrefix]. *)
Fixpoint HasPrefix (s prefix : string) : bool :=
  match prefix, s with
  | EmptyString, _ => true
  | String _ _, EmptyString => false
  | String p prefix, String c s => if Ascii.eqb p c then HasPrefix s prefix else false
  end.

(** The scan of [ReplaceAll]: [skip] counts the bytes of a match that are
    still to be passed over. *)
Fixpoint replace (skip : nat) (s old new : string) : string :=
  match s with
  | EmptyString => EmptyString
  | String c rest =>
      match skip with
      | S n => replace n rest old new
      | O =>
          if HasPrefix s old
          then String.append new (replace (Nat.pred (String.length old)) rest old new)
          else String c (replace O rest old new)
      end
  end.

(** [strings.ReplaceAll(s, old, new)] for a non-empty [old], which is what
    both call sites pass: the non-overlapping occurrences of [old], leftmost
    first, become [new].  (For an empty [old] Go inserts [new] around every
    rune; that case is left as the identity here.) *)
Definition ReplaceAll (s old new : string) : string :=
  match old with
  | EmptyString => s
  | String _ _ => replace O s old new
  end.
End strings.

(** ** Package [net/url] *)

Module url.
Definition between (lo hi c : Ascii.ascii) : bool :=
  (Ascii.N_of_ascii lo <=? Ascii.N_of_ascii c)%N
  && (Ascii.N_of_ascii c <=? Ascii.N_of_ascii hi)%N.

(** [shouldEscape(c, encodeQueryComponent)]: letters, digits and the marks
    [-], [_], [.], [~] stay, every other byte is escaped. *)
Definition shouldEscape (c : Ascii.ascii) : bool :=
  if between "a"%char "z"%char c || between "A"%char "Z"%char c || between "0"%char "9"%char c then false
  else if Ascii.eqb c "-"%char || Ascii.eqb c "_"%char || Ascii.eqb c "."%char || Ascii.eqb c "~"%char
  then false
  else true.

(** ["0123456789ABCDEF"[n]]. *)
Definition upperhex (n : N) : Ascii.ascii :=
  if (n <? 10)%N then Ascii.ascii_of_N (48 + n) else Ascii.ascii_of_N (55 + n).

(** [url.QueryEscape]: a space becomes [+], a byte to escape becomes [%XX]. *)
Fixpoint QueryEscape (s : string) : string :=
  match s with
  | EmptyString => EmptyString
  | String c rest =>
      if Ascii.eqb c " "%char then String "+"%char (QueryEscape rest)
      else if shouldEscape c then
        String "%"%char (String (upperhex (N.shiftr (Ascii.N_of_ascii c) 4))
                   (String (upperhex (N.land (Ascii.N_of_ascii c) 15))
                      (QueryEscape rest)))
      else String c (QueryEscape rest)
  end.
End url.

(** ** Package [net/http]: the interfaces the middleware talks to *)

Module http.

(** [http.Header] is [map[string][]string].  A nil map and an empty map both
    have no entry; they are the empty [gmap]. *)
Abbreviation Header := (gmap string (list string)).

(** [h.Set(key, value)] for a key in canonical form: [h[key] = []string{value}]. *)
Definition Header_Set (key value : string) (h : Header) : Header :=
  <[key := [value]]> h.

Definition StatusOK : Z := 200.
Definition StatusFound : Z := 302.
Definition StatusTemporaryRedirect : Z := 307.
Definition StatusInternalServerError : Z := 500.
Definition MethodGet : string := "GET".

(** [http.StatusText]: the reason phrase of a status code, empty for a code
    that has none. *)
Definition StatusText (code : Z) : string :=
  match code with
  | 100 => "Continue" | 101 => "Switching Protocols" | 102 => "Processing"
  | 103 => "Early Hints"
  | 200 => "OK" | 201 => "Created" | 202 => "Accepted"
  | 203 => "Non-Authoritative Information" | 204 => "No Content"
  | 205 => "Reset Content" | 206 => "Partial Content" | 207 => "Multi-Status"
  | 208 => "Already Reported" | 226 => "IM Used"
  | 300 => "Multiple Choices" | 301 => "Moved Permanently" | 302 => "Found"
  | 303 => "See Other" | 304 => "Not Modified" | 305 => "Use Proxy"
  | 307 => "Temporary Redirect" | 308 => "Permanent Redirect"
  | 400 => "Bad Request" | 401 => "Unauthorized" | 402 => "Payment Required"
  | 403 => "Forbidden" | 404 => "Not Found" | 405 => "Method Not Allowed"
  | 406 => "Not Acceptable" | 407 => "Proxy Authentication Required"
  | 408 => "Request Timeout" | 409 => "Conflict" | 410 => "Gone"
  | 411 => "Length Required" | 412 => "Precondition Failed"
  | 413 => "Request Entity Too Large" | 414 => "Request URI Too Long"
  | 415 => "Unsupported Media Type" | 416 => "Requested Range Not Satisfiable"
  | 417 => "Expectation Failed" | 418 => "I'm a teapot"
  | 421 => "Misdirected Request" | 422 => "Unprocessable Entity"
  | 423 => "Locked" | 424 => "Failed Dependency" | 425 => "Too Early"
  | 426 => "Upgrade Required" | 428 => "Precondition Required"
  | 429 => "Too Many Requests" | 431 => "Request Header Fields Too Large"
  | 451 => "Unavailable For Legal Reasons"
  | 500 => "Internal Server Error" | 501 => "Not Implemented"
  | 502 => "Bad Gateway" | 503 => "Service Unavailable"
  | 504 => "Gateway Timeout" | 505 => "HTTP Version Not Supported"
  | 506 => "Variant Also Negotiates" | 507 => "Insufficient Storage"
  | 508 => "Loop Detected" | 510 => "Not Extended"
  | 511 => "Network Authentication Required"
  | _ => ""
  end.

(** What a response writer can be asked to do.  A status commit is recorded
    with the content of the header map at the time of the call, which is what
    the call sends. *)
Inductive invocation :=
| InvWriteHeader (code : Z) (h : Header)
| InvWrite (buf : list byte)
| InvFlush.

(** A concrete type that implements [http.ResponseWriter], with private state
    [W].  Each method may read and change the header map and the private
    state.  [impl_Flush] is [Some] when the type also implements
    [http.Flusher], which is what the type assertion [rw.(http.Flusher)]
    tests. *)
Class Implements (W : Type) := {
  impl_WriteHeader : Z -> Header -> W -> Header * W;
  impl_Write : list byte -> Header -> W -> (Z * option error) * (Header * W);
  impl_Flush : option (Header -> W -> Header * W);
}.

(** An [http.ResponseWriter] value. *)
Record ResponseWriter (W : Type) := {
  header : Header;
  impl : W;
  received : list invocation;
}.
Arguments header {W} _.
Arguments impl {W} _.
Arguments received {W} _.

Section Methods.
Context {W : Type} `{!Implements W}.

(** Mutation of the map that [rw.Header()] returned. *)
Definition with_header (h : Header) (rw : ResponseWriter W) : ResponseWriter W :=
  {| header := h; impl := impl rw; received := received rw |}.

(** [rw.WriteHeader(code)]. *)
Definition WriteHeader (code : Z) (rw : ResponseWriter W) : ResponseWriter W :=
  let '(h, w) := impl_WriteHeader code (header rw) (impl rw) in
  {| header := h; impl := w;
     received := received rw ++ [InvWriteHeader code (header rw)] |}.

(** [rw.Write(buf)]. *)
Definition Write (buf : list byte) (rw : ResponseWriter W)
  : (Z * option error) * ResponseWriter W :=
  let '(res, (h, w)) := impl_Write buf (header rw) (impl rw) in
  (res, {| header := h; impl := w; received := received rw ++ [InvWrite buf] |}).

(** [rw.(http.Flusher)]: the [Flush] method when the writer has one. *)
Definition Flusher (rw : ResponseWriter W)
  : option (ResponseWriter W -> ResponseWriter W) :=
  match impl_Flush with
  | Some flush =>
      Some (fun rw =>
              let '(h, w) := flush (header rw) (impl rw) in
              {| header := h; impl := w; received := received rw ++ [InvFlush] |})
  | None => None
  end.

(** [http.Error(rw, error, code)]: two headers, the status, then the
    message and a line feed ([fmt.Fprintln]); what the write returns is
    dropped. *)
Definition Error (rw : ResponseWriter W) (error : string) (code : Z)
  : ResponseWriter W :=
  let rw := with_header
              (Header_Set "Content-Type" "text/plain; charset=utf-8" (header rw)) rw in
  let rw := with_header
              (Header_Set "X-Content-Type-Options" "nosniff" (header rw)) rw in
  let rw := WriteHeader code rw in
  snd (Write (bytes (String.append error LF)) rw).
End Methods.

(** [*http.Request], reduced to what the middleware reads: the method and
    the rendering [req.URL.String()] of the URL. *)
Record Request := {
  Method : string;
  URL_String : string;
}.

(** The calls a handler makes on the writer it is given, one node per call.
    [UseHeader f] changes the map returned by [Header()] (Set, Add, Del or an
    assignment), [ReadHeader] looks at it. *)
Inductive calls :=
| Return
| UseHeader (f : Header -> Header) (k : calls)
| ReadHeader (k : Header -> calls)
| CallWriteHeader (code : Z) (k : calls)
| CallWrite (buf : list byte) (k : Z * option error -> calls)
| CallFlush (k : calls).

(** An [http.Handler]: what [ServeHTTP(rw, req)] does with [rw]. *)
Definition Handler := Request -> calls.

End http.

(** ** Package [types] *)

Module types.
(** Modelled from the spec: the declaration of [types.HTTPCodeRanges] is not
    among the sources; the spec gives it as an ordered sequence of
    (low, high) integer pairs, and [WriteHeader] reads [block[0]] and
    [block[1]] of each element. *)
Definition HTTPCodeRanges := list (Z * Z).
End types.

(** ** The interceptor *)

Section CodeCatcher.
Context {W : Type} `{!http.Implements W}.

Record codeCatcher := {
  headerMap : http.Header;
  code : Z;
  httpCodeRanges : types.HTTPCodeRanges;
  caughtFilteredCode : bool;
  responseWriter : http.ResponseWriter W;
  headersSent : bool;
}.

(** [newCodeCatcher].  When [rw] is also an [http.CloseNotifier] the Go
    function wraps the catcher in [codeCatcherWithCloseNotify], which embeds
    the same [*codeCatcher] and adds [CloseNotify]; the methods below are
    those of both.  [CloseNotify] and [Hijack] hand the connection of the
    real writer to the caller and are not part of this development. *)
Definition newCodeCatcher (rw : http.ResponseWriter W)
    (httpCodeRanges : types.HTTPCodeRanges) : codeCatcher :=
  {| headerMap := ∅;
     code := http.StatusOK;
     httpCodeRanges := httpCodeRanges;
     caughtFilteredCode := false;
     responseWriter := rw;
     headersSent := false |}.

(** [cc.Header()]: always the catcher's own map. *)
Definition Header (cc : codeCatcher) : http.Header := headerMap cc.

Definition getCode (cc : codeCatcher) : Z := code cc.

Definition isFilteredCode (cc : codeCatcher) : bool := caughtFilteredCode cc.

(** [for k, vv := range src { dst[k] = append(dst[k], vv...) }]. *)
Definition copyHeaders (dst src : http.Header) : http.Header :=
  map_fold (fun k vv dst => <[k := default [] (dst !! k) ++ vv]> dst) dst src.

(** The loop of [WriteHeader] over the configured blocks: true when it
    leaves through the [return] inside. *)
Fixpoint watched (code : Z) (blocks : types.HTTPCodeRanges) : bool :=
  match blocks with
  | [] => false
  | block :: rest =>
      if (code >=? fst block) && (code <=? snd block) then true
      else watched code rest
  end.

(** Assignments to the fields of [*cc]. *)
Definition with_headerMap (h : http.Header) (cc : codeCatcher) : codeCatcher :=
  {| headerMap := h; code := code cc;
     httpCodeRanges := httpCodeRanges cc;
     caughtFilteredCode := caughtFilteredCode cc;
     responseWriter := responseWriter cc;
     headersSent := headersSent cc |}.

Definition with_code (c : Z) (cc : codeCatcher) : codeCatcher :=
  {| headerMap := headerMap cc; code := c;
     httpCodeRanges := httpCodeRanges cc;
     caughtFilteredCode := caughtFilteredCode cc;
     responseWriter := responseWriter cc;
     headersSent := headersSent cc |}.

Definition with_caughtFilteredCode (b : bool) (cc : codeCatcher) : codeCatcher :=
  {| headerMap := headerMap cc; code := code cc;
     httpCodeRanges := httpCodeRanges cc;
     caughtFilteredCode := b;
     responseWriter := responseWriter cc;
     headersSent := headersSent cc |}.

Definition with_responseWriter (rw : http.ResponseWriter W) (cc : codeCatcher)
    : codeCatcher :=
  {| headerMap := headerMap cc; code := code cc;
     httpCodeRanges := httpCodeRanges cc;
     caughtFilteredCode := caughtFilteredCode cc;
     responseWriter := rw;
     headersSent := headersSent cc |}.

Definition with_headersSent (b : bool) (cc : codeCatcher) : codeCatcher :=
  {| headerMap := headerMap cc; code := code cc;
     httpCodeRanges := httpCodeRanges cc;
     caughtFilteredCode := caughtFilteredCode cc;
     responseWriter := responseWriter cc;
     headersSent := b |}.

Definition WriteHeader (c : Z) (cc : codeCatcher) : codeCatcher :=
  if headersSent cc || caughtFilteredCode cc then cc
  else
    let cc := with_code c cc in
    if watched (code cc) (httpCodeRanges cc) then
      (* it is up to the caller to send the headers now *)
      with_caughtFilteredCode true cc
    else
      (* the map [cc.responseWriter.Header()] returns is changed in place *)
      let rw := responseWriter cc in
      let rw := http.with_header (copyHeaders (http.header rw) (Header cc)) rw in
      let rw := http.WriteHeader (code cc) rw in
      with_headersSent true (with_responseWriter rw cc).

Definition Write (buf : list byte) (cc : codeCatcher)
    : (Z * option error) * codeCatcher :=
  let cc := WriteHeader (code cc) cc in
  if caughtFilteredCode cc then ((len buf, None), cc)
  else
    let '(res, rw) := http.Write buf (responseWriter cc) in
    (res, with_responseWriter rw cc).

Definition Flush (cc : codeCatcher) : codeCatcher :=
  let cc := WriteHeader (code cc) cc in
  match http.Flusher (responseWriter cc) with
  | Some flush => with_responseWriter (flush (responseWriter cc)) cc
  | None => cc
  end.

(** [next.ServeHTTP(catcher, req)]: the handler's calls, made on the
    catcher. *)
Fixpoint serve (h : http.calls) (cc : codeCatcher) : codeCatcher :=
  match h with
  | http.Return => cc
  | http.UseHeader f k => serve k (with_headerMap (f (Header cc)) cc)
  | http.ReadHeader k => serve (k (Header cc)) cc
  | http.CallWriteHeader c k => serve k (WriteHeader c cc)
  | http.CallWrite buf k => let '(res, cc) := Write buf cc in serve (k res) cc
  | http.CallFlush k => serve k (Flush cc)
  end.

End CodeCatcher.

Arguments codeCatcher : clear implicits.

(** ** The middleware *)

Section RedirectStatus.
Context {W : Type} `{!http.Implements W}.

Record redirectStatus := {
  r_name : string;
  r_next : http.Handler;
  r_httpCodeRanges : types.HTTPCodeRanges;
  r_to : string;
}.

Definition ServeHTTP (r : redirectStatus) (rw : http.ResponseWriter W)
    (req : http.Request) : http.ResponseWriter W :=
  let catcher := serve (r_next r req) (newCodeCatcher rw (r_httpCodeRanges r)) in
  let rw := responseWriter catcher in
  if negb (isFilteredCode catcher) then rw
  else
    let code := getCode catcher in
    let to :=
      if 0 <? Z.of_nat (String.length (r_to r)) then
        let to := r_to r in
        let to := strings.ReplaceAll to "{status}" (strconv.Itoa code) in
        let to := strings.ReplaceAll to "{url}" (url.QueryEscape (http.URL_String req)) in
        to
      else "" in
    let rw := http.with_header (http.Header_Set "Location" to (http.header rw)) rw in
    let status :=
      if negb (String.eqb (http.Method req) http.MethodGet)
      then http.StatusTemporaryRedirect
      else http.StatusFound in
    let rw := http.WriteHeader status rw in
    let '((_, err), rw) := http.Write (bytes (http.StatusText status)) rw in
    match err with
    | Some err => http.Error rw (Error err) http.StatusInternalServerError
    | None => rw
    end.

End RedirectStatus.

(** ** Two response writers to run the code on *)

Module httptest.
(** A recorder in the manner of [httptest.ResponseRecorder], without its
    content-type sniffing: the first status commit fixes [Code] and takes a
    snapshot of the header map, a write or a flush before any status commit
    commits 200 first, writes are appended to [Body] and always succeed. *)
Record ResponseRecorder := {
  Code : Z;
  snapHeader : http.Header;
  Body : list byte;
  Flushed : bool;
  wroteHeader : bool;
}.

Definition NewRecorder : ResponseRecorder :=
  {| Code := 200; snapHeader := ∅; Body := []; Flushed := false;
     wroteHeader := false |}.

Definition WriteHeader (code : Z) (h : http.Header) (rw : ResponseRecorder)
    : ResponseRecorder :=
  if wroteHeader rw then rw
  else {| Code := code; snapHeader := h; Body := Body rw; Flushed := Flushed rw;
          wroteHeader := true |}.

Definition Write (buf : list byte) (h : http.Header) (rw : ResponseRecorder)
    : ResponseRecorder :=
  let rw := WriteHeader 200 h rw in
  {| Code := Code rw; snapHeader := snapHeader rw; Body := Body rw ++ buf;
     Flushed := Flushed rw; wroteHeader := wroteHeader rw |}.

Definition Flush (h : http.Header) (rw : ResponseRecorder) : ResponseRecorder :=
  let rw := WriteHeader 200 h rw in
  {| Code := Code rw; snapHeader := snapHeader rw; Body := Body rw;
     Flushed := true; wroteHeader := wroteHeader rw |}.

#[global] Instance ResponseRecorder_Implements : http.Implements ResponseRecorder := {|
  http.impl_WriteHeader code h rw := (h, WriteHeader code h rw);
  http.impl_Write buf h rw := ((len buf, None), (h, Write buf h rw));
  http.impl_Flush := Some (fun h rw => (h, Flush h rw));
|}.

(** A fresh recorder as an [http.ResponseWriter]. *)
Definition recorder : http.ResponseWriter ResponseRecorder :=
  {| http.header := ∅; http.impl := NewRecorder; http.received := [] |}.
End httptest.

(** A writer whose connection is gone: every write fails, and there is no
    [Flush] method. *)
Module broken.
Inductive conn := Closed.

Definition EPIPE : error := errorString "write: broken pipe".

#[global] Instance conn_Implements : http.Implements conn := {|
  http.impl_WriteHeader _ h c := (h, c);
  http.impl_Write _ h c := ((0, Some EPIPE), (h, c));
  http.impl_Flush := None;
|}.

Definition writer : http.ResponseWriter conn :=
  {| http.header := ∅; http.impl := Closed; http.received := [] |}.
End broken.

(** ** Requests to run the code on *)

Module scenario.
(** The configuration of [TestRedirectStatus]: [Status = ["401-403"]],
    [To = "http://localhost"]. *)
Definition plugin (next : http.Handler) : redirectStatus :=
  {| r_name := "redirectstatus-plugin"; r_next := next;
     r_httpCodeRanges := [(401, 403)]; r_to := "http://localhost" |}.

Definition get : http.Request :=
  {| http.Method := "GET"; http.URL_String := "https://example.org" |}.

Definition post : http.Request :=
  {| http.Method := "POST"; http.URL_String := "https://example.org" |}.

(** Upstream handlers. *)
Definition unauthorized : http.Handler :=
  fun _ => http.CallWriteHeader 401 http.Return.

Definition hello : http.Handler :=
  fun _ => http.CallWriteHeader 200
             (http.CallWrite (bytes "hello") (fun _ => http.Return)).

Definition unauthorized_then_flush : http.Handler :=
  fun _ => http.CallWriteHeader 401 (http.CallFlush http.Return).


Definition headers_only : http.Handler :=
  fun _ => http.UseHeader (http.Header_Set "X-Early" "1") http.Return.


(** A configuration that watches 200 and a template with both
    placeholders. *)
Definition watch_ok (next : http.Handler) : redirectStatus :=
  {| r_name := "watch-ok"; r_next := next;
     r_httpCodeRanges := [(200, 299)]; r_to := "http://localhost" |}.

Definition templated (next : http.Handler) : redirectStatus :=
  {| r_name := "templated"; r_next := next;
     r_httpCodeRanges := [(403, 403)]; r_to := "http://x/{status}?u={url}" |}.

Definition forbidden : http.Handler :=
  fun _ => http.CallWriteHeader 403 http.Return.

Definition get_ab : http.Request :=
  {| http.Method := "GET"; http.URL_String := "http://a/b?c=d" |}.
End scenario.

(** ** What the claims speak of *)

(** The three states of the interceptor, read off its two flags. *)
Inductive InterceptionState := Open | PassThrough | Suppressed.

(** The status codes of the status commits in a list of invocations. *)
Fixpoint status_commits (l : list http.invocation) : list Z :=
  match l with
  | [] => []
  | http.InvWriteHeader c _ :: l => c :: status_commits l
  | _ :: l => status_commits l
  end.

(** How a handler run first commits a status. *)
Inductive commit := Explicit | Implicit.

(** A call the handler has made on the catcher. *)
Inductive made :=
| MadeWriteHeader (c : Z)
| MadeWrite (buf : list byte)
| MadeFlush.

(** The bytes of the body writes in a list of invocations, in order. *)
Fixpoint body_of (l : list http.invocation) : list byte :=
  match l with
  | [] => []
  | http.InvWrite buf :: l => buf ++ body_of l
  | _ :: l => body_of l
  end.

(** The number of flushes in a list of invocations. *)
Fixpoint flushes_of (l : list http.invocation) : nat :=
  match l with
  | [] => 0%nat
  | http.InvFlush :: l => S (flushes_of l)
  | _ :: l => flushes_of l
  end.

(** The bytes a handler has passed to [Write], in order, and the number of
    times it has called [Flush]. *)
Fixpoint written (l : list made) : list byte :=
  match l with
  | [] => []
  | MadeWrite buf :: l => buf ++ written l
  | _ :: l => written l
  end.

Fixpoint flushed (l : list made) : nat :=
  match l with
  | [] => 0%nat
  | MadeFlush :: l => S (flushed l)
  | _ :: l => flushed l
  end.

(** Whether byte [c] occurs in [s]. *)
Fixpoint has_byte (c : Ascii.ascii) (s : string) : bool :=
  match s with
  | EmptyString => false
  | String a rest => if Ascii.eqb c a then true else has_byte c rest
  end.

Section Vocabulary.
Context {W : Type} `{!http.Implements W}.
Implicit Types (cc : codeCatcher W) (rw : http.ResponseWriter W)
  (h : http.calls) (buf : list byte) (r : redirectStatus) (req : http.Request).

Definition state cc : InterceptionState :=
  if caughtFilteredCode cc then Suppressed
  else if headersSent cc then PassThrough
  else Open.

(** The first status commit of the run of [h] on [cc], for an [Open] [cc]:
    the code of an explicit [WriteHeader], or the code that [Write] and
    [Flush] hand to [WriteHeader] themselves. *)
Fixpoint first_commit h cc : option (commit * Z) :=
  match h with
  | http.Return => None
  | http.UseHeader f k => first_commit k (with_headerMap (f (Header cc)) cc)
  | http.ReadHeader k => first_commit (k (Header cc)) cc
  | http.CallWriteHeader c _ => Some (Explicit, c)
  | http.CallWrite _ _ => Some (Implicit, code cc)
  | http.CallFlush _ => Some (Implicit, code cc)
  end.

(** [flusher.Flush()] on the real writer when it has the method, nothing
    otherwise: the last statement of [codeCatcher.Flush]. *)
Definition forward_flush rw : http.ResponseWriter W :=
  match http.Flusher rw with
  | Some flush => flush rw
  | None => rw
  end.

(** [cc'] carries the decision of [cc]: same state, same captured code, same
    ranges, and no further status commit on the real writer. *)
Definition same_decision cc cc' : Prop :=
  state cc' = state cc /\ code cc' = code cc
  /\ httpCodeRanges cc' = httpCodeRanges cc
  /\ status_commits (http.received (responseWriter cc'))
     = status_commits (http.received (responseWriter cc)).

(** A later [WriteHeader c'], after the commit that led to [first] and the
    calls of [h], changes nothing. *)
Definition first_commit_wins (first : codeCatcher W) h (c' : Z) : Prop :=
  let later := serve h first in
  WriteHeader c' later = later
  /\ getCode (WriteHeader c' later) = getCode first
  /\ isFilteredCode (WriteHeader c' later) = isFilteredCode first
  /\ status_commits (http.received (responseWriter (WriteHeader c' later)))
     = status_commits (http.received (responseWriter first)).

(** The catcher when [next.ServeHTTP(catcher, req)] has returned. *)
Definition upstream r rw req : codeCatcher W :=
  serve (r_next r req) (newCodeCatcher rw (r_httpCodeRanges r)).

(** The [Location] value the spec describes for a captured code. *)
Definition location r (captured : Z) req : string :=
  if decide (r_to r = "") then ""
  else strings.ReplaceAll
         (strings.ReplaceAll (r_to r) "{status}" (strconv.Itoa captured))
         "{url}" (url.QueryEscape (http.URL_String req)).

(** The redirect status the spec describes for a request. *)
Definition redirect req : Z :=
  if decide (http.Method req = "GET") then 302 else 307.

(** The real writer as it stands when [ServeHTTP] writes the redirect body:
    the upstream run is over, [Location] is set and the redirect status is
    committed. *)
Definition before_body r rw req : http.ResponseWriter W :=
  let catcher := upstream r rw req in
  http.WriteHeader (redirect req)
    (http.with_header
       (<["Location" := [location r (getCode catcher) req]]>
          (http.header (responseWriter catcher)))
       (responseWriter catcher)).

(** The calls that the run of [h] on [cc] makes, in order; the run is that
    of [serve]. *)
Fixpoint calls_made h cc : list made :=
  match h with
  | http.Return => []
  | http.UseHeader f k => calls_made k (with_headerMap (f (Header cc)) cc)
  | http.ReadHeader k => calls_made (k (Header cc)) cc
  | http.CallWriteHeader c k => MadeWriteHeader c :: calls_made k (WriteHeader c cc)
  | http.CallWrite buf k =>
      MadeWrite buf :: (let '(res, cc) := Write buf cc in calls_made (k res) cc)
  | http.CallFlush k => MadeFlush :: calls_made k (Flush cc)
  end.

(** What the catcher passes on to the real writer for the calls made on it
    once the decision is taken: in [PassThrough] the writes and, when the
    real writer has a [Flush] method, the flushes; in [Suppressed] those
    flushes only. *)
Fixpoint forwarded (suppressed : bool) (l : list made) : list http.invocation :=
  match l with
  | [] => []
  | MadeWriteHeader _ :: l => forwarded suppressed l
  | MadeWrite buf :: l =>
      if suppressed then forwarded suppressed l
      else http.InvWrite buf :: forwarded suppressed l
  | MadeFlush :: l =>
      match http.impl_Flush with
      | Some _ => http.InvFlush :: forwarded suppressed l
      | None => forwarded suppressed l
      end
  end.

(** The status commits that the real writer receives from [ServeHTTP]: none
    when the handler commits nothing, the handler's code when it is not
    watched, else the redirect status, and 500 after it when the write of the
    redirect body fails. *)
Definition commits_of_ServeHTTP r rw req : list Z :=
  match first_commit (r_next r req) (newCodeCatcher rw (r_httpCodeRanges r)) with
  | None => []
  | Some (_, C) =>
      if watched C (r_httpCodeRanges r) then
        redirect req ::
          match (http.Write (bytes (http.StatusText (redirect req)))
                   (before_body r rw req)).1.2 with
          | Some _ => [http.StatusInternalServerError]
          | None => []
          end
      else [C]
  end.

(** [n] calls of [Flush] and nothing else. *)
Fixpoint flushes (n : nat) : http.calls :=
  match n with
  | O => http.Return
  | S n => http.CallFlush (flushes n)
  end.

(** A catcher with other ranges, and a middleware with another upstream
    handler or other ranges. *)
Definition with_httpCodeRanges (ranges : types.HTTPCodeRanges) cc : codeCatcher W :=
  {| headerMap := headerMap cc; code := code cc;
     httpCodeRanges := ranges;
     caughtFilteredCode := caughtFilteredCode cc;
     responseWriter := responseWriter cc;
     headersSent := headersSent cc |}.

Definition with_next (next : http.Handler) r : redirectStatus :=
  {| r_name := r_name r; r_next := next;
     r_httpCodeRanges := r_httpCodeRanges r; r_to := r_to r |}.

Definition with_ranges (ranges : types.HTTPCodeRanges) r : redirectStatus :=
  {| r_name := r_name r; r_next := r_next r;
     r_httpCodeRanges := ranges; r_to := r_to r |}.

End Vocabulary.

(** ** The interceptor, proved *)

Section Properties.
Context {W : Type} `{!http.Implements W}.
Implicit Types (cc : codeCatcher W) (rw : http.ResponseWriter W)
  (h : http.calls) (buf : list byte).

(** *** The range loop and the header copy *)

Lemma watched_spec (c : Z) (blocks : types.HTTPCodeRanges) :
  watched c blocks = true <-> exists lo hi, (lo, hi) ∈ blocks /\ lo <= c <= hi.
Proof.
  induction blocks as [|[lo hi] rest IH]; simpl.
  - split; [discriminate|]. intros (lo & hi & Hin & _). by apply elem_of_nil in Hin.
  - destruct ((c >=? lo) && (c <=? hi)) eqn:Hc.
    + split; [intros _|done]. exists lo, hi. split; [left|lia].
    + rewrite IH. split.
      * intros (lo' & hi' & Hin & Hb). exists lo', hi'. split; [by right|done].
      * intros (lo' & hi' & Hin & Hb). apply elem_of_cons in Hin as [Heq|Hin].
        -- inversion Heq; subst. lia.
        -- by exists lo', hi'.
Qed.

Lemma copyHeaders_lookup (dst src : http.Header) (k : string) :
  copyHeaders dst src !! k =
    match src !! k with
    | Some vv => Some (default [] (dst !! k) ++ vv)
    | None => dst !! k
    end.
Proof.
  revert k. unfold copyHeaders.
  apply (map_fold_weak_ind (fun (r m : http.Header) => forall k,
    r !! k = match m !! k with
             | Some vv => Some (default [] (dst !! k) ++ vv)
             | None => dst !! k
             end)).
  - intros k. by rewrite lookup_empty.
  - intros i x m r Hi IH k. destruct (decide (i = k)) as [->|Hne].
    + rewrite !lookup_insert_eq. specialize (IH k). rewrite Hi in IH.
      by rewrite IH.
    + rewrite !lookup_insert_ne by done. apply IH.
Qed.

(** *** What the real writer records *)

Lemma status_commits_app (l1 l2 : list http.invocation) :
  status_commits (l1 ++ l2) = status_commits l1 ++ status_commits l2.
Proof.
  induction l1 as [|[c hd|buf|] l1 IH]; simpl; [done|by rewrite IH|done|done].
Qed.

Lemma received_WriteHeader (c : Z) rw :
  http.received (http.WriteHeader c rw)
  = http.received rw ++ [http.InvWriteHeader c (http.header rw)].
Proof. unfold http.WriteHeader. by destruct (http.impl_WriteHeader _ _ _). Qed.

Lemma received_Write buf rw :
  http.received (http.Write buf rw).2 = http.received rw ++ [http.InvWrite buf].
Proof.
  unfold http.Write. by destruct (http.impl_Write _ _ _) as [res [hd w]].
Qed.

Lemma received_forward_flush rw :
  http.received (forward_flush rw)
  = http.received rw
    ++ match http.impl_Flush with Some _ => [http.InvFlush] | None => [] end.
Proof.
  unfold forward_flush, http.Flusher. destruct http.impl_Flush as [flush|]; simpl.
  - by destruct (flush _ _).
  - by rewrite app_nil_r.
Qed.

(** *** The three methods, state by state *)

Lemma with_responseWriter_same cc : with_responseWriter (responseWriter cc) cc = cc.
Proof. by destruct cc. Qed.

Lemma with_headerMap_same cc : with_headerMap (headerMap cc) cc = cc.
Proof. by destruct cc. Qed.

Lemma WriteHeader_settled (c : Z) cc : state cc <> Open -> WriteHeader c cc = cc.
Proof.
  unfold state, WriteHeader.
  by destruct (caughtFilteredCode cc), (headersSent cc).
Qed.

Lemma WriteHeader_caught (c : Z) cc :
  state cc = Open -> watched c (httpCodeRanges cc) = true ->
  state (WriteHeader c cc) = Suppressed /\ code (WriteHeader c cc) = c
  /\ responseWriter (WriteHeader c cc) = responseWriter cc.
Proof.
  unfold state, WriteHeader. intros Hst Hw.
  destruct (caughtFilteredCode cc), (headersSent cc); try done.
  simpl. by rewrite Hw.
Qed.

Lemma WriteHeader_sent (c : Z) cc :
  state cc = Open -> watched c (httpCodeRanges cc) = false ->
  state (WriteHeader c cc) = PassThrough /\ code (WriteHeader c cc) = c
  /\ responseWriter (WriteHeader c cc)
     = http.WriteHeader c
         (http.with_header
            (copyHeaders (http.header (responseWriter cc)) (Header cc))
            (responseWriter cc)).
Proof.
  unfold state, WriteHeader. intros Hst Hw.
  destruct (caughtFilteredCode cc) eqn:Hc, (headersSent cc) eqn:Hs; try done.
  simpl. rewrite Hw. simpl. by rewrite Hc.
Qed.

Lemma WriteHeader_Open_code (c : Z) cc :
  state cc = Open -> code (WriteHeader c cc) = c.
Proof.
  intros Hst. destruct (watched c (httpCodeRanges cc)) eqn:Hw.
  - by destruct (WriteHeader_caught c cc Hst Hw) as (_ & -> & _).
  - by destruct (WriteHeader_sent c cc Hst Hw) as (_ & -> & _).
Qed.

Lemma WriteHeader_ranges (c : Z) cc :
  httpCodeRanges (WriteHeader c cc) = httpCodeRanges cc.
Proof.
  unfold WriteHeader.
  destruct (headersSent cc || caughtFilteredCode cc); [done|].
  simpl. by destruct (watched c (httpCodeRanges cc)).
Qed.

Lemma WriteHeader_headerMap (c : Z) cc : Header (WriteHeader c cc) = Header cc.
Proof.
  unfold WriteHeader.
  destruct (headersSent cc || caughtFilteredCode cc); [done|].
  simpl. by destruct (watched c (httpCodeRanges cc)).
Qed.

Lemma WriteHeader_settles (c : Z) cc : state (WriteHeader c cc) <> Open.
Proof.
  destruct (state cc) eqn:Hst.
  - destruct (watched c (httpCodeRanges cc)) eqn:Hw.
    + destruct (WriteHeader_caught c cc Hst Hw) as [-> _]. done.
    + destruct (WriteHeader_sent c cc Hst Hw) as [-> _]. done.
  - rewrite WriteHeader_settled; congruence.
  - rewrite WriteHeader_settled; congruence.
Qed.

Lemma Write_Suppressed buf cc :
  state cc = Suppressed -> Write buf cc = ((len buf, None), cc).
Proof.
  intros Hst. unfold Write. rewrite WriteHeader_settled by congruence.
  unfold state in Hst.
  destruct (caughtFilteredCode cc); [done|by destruct (headersSent cc)].
Qed.

Lemma Write_PassThrough buf cc :
  state cc = PassThrough ->
  Write buf cc = ((http.Write buf (responseWriter cc)).1,
                  with_responseWriter (http.Write buf (responseWriter cc)).2 cc).
Proof.
  intros Hst. unfold Write. rewrite WriteHeader_settled by congruence.
  unfold state in Hst. destruct (caughtFilteredCode cc); [by destruct (headersSent cc)|].
  by destruct (http.Write buf (responseWriter cc)).
Qed.

Lemma Write_unfold buf cc :
  Write buf cc = Write buf (WriteHeader (code cc) cc).
Proof.
  unfold Write at 2.
  rewrite (WriteHeader_settled _ (WriteHeader (code cc) cc))
    by apply WriteHeader_settles.
  done.
Qed.

Lemma Flush_eq cc :
  Flush cc = with_responseWriter
               (forward_flush (responseWriter (WriteHeader (code cc) cc)))
               (WriteHeader (code cc) cc).
Proof.
  unfold Flush, forward_flush.
  destruct (http.Flusher _); [done|]. by rewrite with_responseWriter_same.
Qed.

(** In state [Suppressed] the flush is still forwarded: [Flush] has no test of
    [caughtFilteredCode], where [Write] has one. *)
Lemma Flush_Suppressed cc :
  state cc = Suppressed ->
  Flush cc = with_responseWriter (forward_flush (responseWriter cc)) cc.
Proof. intros Hst. by rewrite Flush_eq, WriteHeader_settled by congruence. Qed.

Lemma Flush_unfold cc : Flush cc = Flush (WriteHeader (code cc) cc).
Proof.
  unfold Flush at 2.
  rewrite (WriteHeader_settled _ (WriteHeader (code cc) cc))
    by apply WriteHeader_settles.
  done.
Qed.

(** *** Once the decision is taken *)

Lemma same_decision_refl cc : same_decision cc cc.
Proof. by repeat split. Qed.

Lemma same_decision_trans cc1 cc2 cc3 :
  same_decision cc1 cc2 -> same_decision cc2 cc3 -> same_decision cc1 cc3.
Proof.
  intros (?&?&?&?) (?&?&?&?). repeat split; congruence.
Qed.

Lemma Write_settled buf cc : state cc <> Open -> same_decision cc (Write buf cc).2.
Proof.
  intros Hst. destruct (state cc) eqn:Hs; [done| |].
  - rewrite Write_PassThrough by done. simpl. repeat split; try done.
    simpl. rewrite received_Write, status_commits_app. simpl. by rewrite app_nil_r.
  - rewrite Write_Suppressed by done. apply same_decision_refl.
Qed.

Lemma Flush_settled cc : state cc <> Open -> same_decision cc (Flush cc).
Proof.
  intros Hst. rewrite Flush_eq, WriteHeader_settled by done.
  repeat split; try done. simpl.
  rewrite received_forward_flush, status_commits_app.
  destruct http.impl_Flush; simpl; by rewrite app_nil_r.
Qed.

Lemma same_decision_settled cc cc' :
  same_decision cc cc' -> state cc <> Open -> state cc' <> Open.
Proof. intros (-> & _). done. Qed.

Lemma serve_settled h : forall cc, state cc <> Open -> same_decision cc (serve h cc).
Proof.
  induction h as [|f k IH|k IH|c k IH|buf k IH|k IH]; intros cc Hst; simpl.
  - apply same_decision_refl.
  - apply (same_decision_trans _ (with_headerMap (f (Header cc)) cc));
      [by repeat split|by apply IH].
  - by apply IH.
  - rewrite WriteHeader_settled by done. by apply IH.
  - pose proof (Write_settled buf cc Hst) as Hw.
    destruct (Write buf cc) as [res cc']; simpl in Hw.
    eapply same_decision_trans; [exact Hw|].
    apply IH. by eapply same_decision_settled.
  - pose proof (Flush_settled cc Hst) as Hf.
    eapply same_decision_trans; [exact Hf|].
    apply IH. by eapply same_decision_settled.
Qed.

(** *** Up to the first commit *)

Lemma first_commit_None h : forall cc,
  first_commit h cc = None -> exists hm, serve h cc = with_headerMap hm cc.
Proof.
  induction h as [|f k IH|k IH|c k IH|buf k IH|k IH]; intros cc Hfc; simpl in *;
    try discriminate.
  - exists (headerMap cc). by rewrite with_headerMap_same.
  - destruct (IH _ Hfc) as [hm ->]. by exists hm.
  - by apply IH.
Qed.


(** The run of a handler that commits is the run of its header changes,
    then [WriteHeader] with the code of the first commit, then calls that
    keep the decision. *)
Lemma serve_first_commit h : forall cc how (C : Z),
  first_commit h cc = Some (how, C) ->
  exists hm, same_decision (WriteHeader C (with_headerMap hm cc)) (serve h cc).
Proof.
  induction h as [|f k IH|k IH|c k IH|buf k IH|k IH]; intros cc how C Hfc;
    simpl in *; try discriminate.
  - destruct (IH _ _ _ Hfc) as [hm Hd]. by exists hm.
  - by apply IH in Hfc.
  - inversion Hfc; subst. exists (headerMap cc).
    rewrite with_headerMap_same.
    apply serve_settled, WriteHeader_settles.
  - inversion Hfc; subst. exists (headerMap cc).
    rewrite with_headerMap_same.
    rewrite Write_unfold.
    pose proof (Write_settled buf _ (WriteHeader_settles (code cc) cc)) as Hw.
    destruct (Write buf (WriteHeader (code cc) cc)) as [res cc']; simpl in Hw.
    eapply same_decision_trans; [exact Hw|].
    apply serve_settled. eapply same_decision_settled; [exact Hw|].
    apply WriteHeader_settles.
  - inversion Hfc; subst. exists (headerMap cc).
    rewrite with_headerMap_same.
    rewrite Flush_unfold.
    pose proof (Flush_settled _ (WriteHeader_settles (code cc) cc)) as Hf.
    eapply same_decision_trans; [exact Hf|].
    apply serve_settled. eapply same_decision_settled; [exact Hf|].
    apply WriteHeader_settles.
Qed.

Lemma isFilteredCode_state cc : isFilteredCode cc = true <-> state cc = Suppressed.
Proof.
  unfold isFilteredCode, state.
  destruct (caughtFilteredCode cc), (headersSent cc); split; congruence.
Qed.

(** *** The decision *)

(** C1.  When the first status commit of the upstream handler, explicit or
    implicit, carries code [C], the interceptor ends with [isFilteredCode]
    true, in state [Suppressed], exactly when some configured range
    [lo, hi] has [lo <= C <= hi]; otherwise it ends in [PassThrough], and
    the real writer has received one status commit more than before, with
    code [C].  In both cases [C] is the captured code. *)
Theorem first_commit_decides h rw (ranges : types.HTTPCodeRanges) how (C : Z) :
  first_commit h (newCodeCatcher rw ranges) = Some (how, C) ->
  let cc := serve h (newCodeCatcher rw ranges) in
  (isFilteredCode cc = true <-> exists lo hi, (lo, hi) ∈ ranges /\ lo <= C <= hi)
  /\ (isFilteredCode cc = true -> state cc = Suppressed)
  /\ (isFilteredCode cc = false ->
        state cc = PassThrough
        /\ status_commits (http.received (responseWriter cc))
           = status_commits (http.received rw) ++ [C])
  /\ getCode cc = C.
Proof.
  intros Hfc cc.
  destruct (serve_first_commit _ _ _ _ Hfc) as [hm (Hst & Hcode & _ & Hrecv)].
  fold cc in Hst, Hcode, Hrecv.
  set (cc1 := with_headerMap hm (newCodeCatcher rw ranges)) in *.
  assert (Hopen : state cc1 = Open) by done.
  rewrite <- watched_spec.
  destruct (watched C ranges) eqn:Hw.
  - destruct (WriteHeader_caught C cc1 Hopen Hw) as (Hs1 & Hc1 & _).
    rewrite Hs1 in Hst. rewrite Hc1 in Hcode.
    assert (Hf : isFilteredCode cc = true) by by apply isFilteredCode_state.
    split; [by rewrite Hf|]. split; [done|]. split; [congruence|done].
  - destruct (WriteHeader_sent C cc1 Hopen Hw) as (Hs1 & Hc1 & Hrw1).
    rewrite Hs1 in Hst. rewrite Hc1 in Hcode. rewrite Hrw1 in Hrecv.
    rewrite received_WriteHeader, status_commits_app in Hrecv. simpl in Hrecv.
    assert (Hf : isFilteredCode cc = false).
    { destruct (isFilteredCode cc) eqn:Hf; [|done].
      apply isFilteredCode_state in Hf. congruence. }
    split; [by rewrite Hf|]. split; [congruence|]. split; [done|done].
Qed.

(** C2.  A body write after the commit decision: in [PassThrough] the real
    writer is asked to write exactly [buf], and the count and error it
    returns are returned; in [Suppressed] the real writer is left as it is
    and the call returns [(len(buf), nil)]. *)
Theorem Write_after_decision buf cc :
  (state cc = PassThrough ->
     Write buf cc = ((http.Write buf (responseWriter cc)).1,
                     with_responseWriter (http.Write buf (responseWriter cc)).2 cc)
     /\ http.received (responseWriter (Write buf cc).2)
        = http.received (responseWriter cc) ++ [http.InvWrite buf])
  /\ (state cc = Suppressed ->
        Write buf cc = ((len buf, None), cc)).
Proof.
  split.
  - intros Hst. rewrite Write_PassThrough by done. split; [done|].
    simpl. apply received_Write.
  - apply Write_Suppressed.
Qed.

Lemma settled_first_commit_wins first h (c' : Z) :
  state first <> Open -> first_commit_wins first h c'.
Proof.
  intros Hst. unfold first_commit_wins.
  destruct (serve_settled h first Hst) as (Hs & Hcode & _ & Hrecv).
  rewrite WriteHeader_settled by congruence.
  repeat split; try done.
  unfold isFilteredCode. unfold state in Hs.
  destruct (caughtFilteredCode (serve h first)), (caughtFilteredCode first),
    (headersSent (serve h first)), (headersSent first); congruence.
Qed.

Lemma Write_settles buf cc : state (Write buf cc).2 <> Open.
Proof.
  rewrite Write_unfold.
  destruct (Write_settled buf _ (WriteHeader_settles (code cc) cc)) as (-> & _).
  apply WriteHeader_settles.
Qed.

Lemma Flush_settles cc : state (Flush cc) <> Open.
Proof.
  rewrite Flush_unfold.
  destruct (Flush_settled _ (WriteHeader_settles (code cc) cc)) as (-> & _).
  apply WriteHeader_settles.
Qed.

(** C5.  Whatever call made the first status commit on a catcher [cc], an
    explicit [WriteHeader c], a [Write] or a [Flush], and whatever the handler
    did afterwards, a later [WriteHeader c'] changes nothing: the catcher,
    with the real writer it holds, is the same after the call, and the
    captured code, the suppression decision and the status commits received
    by the real writer are those of the first commit. *)
Theorem later_WriteHeader_is_noop h cc (c c' : Z) buf :
  first_commit_wins (WriteHeader c cc) h c'
  /\ first_commit_wins (Write buf cc).2 h c'
  /\ first_commit_wins (Flush cc) h c'.
Proof.
  split; [|split]; apply settled_first_commit_wins.
  - apply WriteHeader_settles.
  - apply Write_settles.
  - apply Flush_settles.
Qed.


(** *** The captured headers *)



End Properties.

(** ** The middleware, proved *)

Section Middleware.
Context {W : Type} `{!http.Implements W}.
Implicit Types (r : redirectStatus) (rw : http.ResponseWriter W)
  (req : http.Request).

(** C10.  When the upstream handler returns without a status commit, a body
    write or a flush on the interceptor, [ServeHTTP] hands back the real
    writer exactly as it received it: no invocation, no change of its
    header map, whatever the configured ranges are. *)
Theorem silent_handler_leaves_writer r rw req :
  first_commit (r_next r req) (newCodeCatcher rw (r_httpCodeRanges r)) = None ->
  ServeHTTP r rw req = rw.
Proof.
  intros Hfc. unfold ServeHTTP.
  destruct (first_commit_None _ _ Hfc) as [hm ->]. done.
Qed.

(** *** The substitute response *)

Lemma to_is_location r (captured : Z) req :
  (if 0 <? Z.of_nat (String.length (r_to r)) then
     strings.ReplaceAll
       (strings.ReplaceAll (r_to r) "{status}" (strconv.Itoa captured))
       "{url}" (url.QueryEscape (http.URL_String req))
   else "") = location r captured req.
Proof.
  unfold location. destruct (r_to r) as [|a to]; [done|].
  by rewrite decide_False.
Qed.

Lemma status_is_redirect req :
  (if negb (String.eqb (http.Method req) http.MethodGet)
   then http.StatusTemporaryRedirect else http.StatusFound) = redirect req.
Proof.
  unfold redirect, http.MethodGet.
  destruct (String.eqb_spec (http.Method req) "GET") as [Heq|Hne]; simpl.
  - by rewrite decide_True.
  - by rewrite decide_False.
Qed.

Lemma ServeHTTP_Suppressed r rw req :
  isFilteredCode (upstream r rw req) = true ->
  ServeHTTP r rw req =
    let res := http.Write (bytes (http.StatusText (redirect req)))
                 (before_body r rw req) in
    match res.1.2 with
    | Some err => http.Error res.2 (Error err) http.StatusInternalServerError
    | None => res.2
    end.
Proof.
  intros Hf. unfold ServeHTTP, before_body. fold (upstream r rw req).
  rewrite Hf. simpl negb. cbv iota.
  rewrite to_is_location, status_is_redirect. unfold http.Header_Set.
  by destruct (http.Write _ _) as [[n [err|]] rw'].
Qed.

Lemma received_before_body r rw req :
  http.received (before_body r rw req)
  = http.received (responseWriter (upstream r rw req))
    ++ [http.InvWriteHeader (redirect req)
          (<["Location" := [location r (getCode (upstream r rw req)) req]]>
             (http.header (responseWriter (upstream r rw req))))].
Proof. unfold before_body. by rewrite received_WriteHeader. Qed.

Lemma received_Error rw (msg : string) (c : Z) :
  exists hdr,
    http.received (http.Error rw msg c)
    = http.received rw
      ++ [http.InvWriteHeader c hdr; http.InvWrite (bytes (String.append msg LF))].
Proof.
  unfold http.Error. eexists.
  rewrite received_Write, received_WriteHeader. simpl.
  by rewrite <- app_assoc.
Qed.

Lemma received_ServeHTTP_Suppressed r rw req :
  isFilteredCode (upstream r rw req) = true ->
  exists rest,
    http.received (ServeHTTP r rw req)
    = http.received (responseWriter (upstream r rw req))
      ++ http.InvWriteHeader (redirect req)
           (<["Location" := [location r (getCode (upstream r rw req)) req]]>
              (http.header (responseWriter (upstream r rw req))))
         :: http.InvWrite (bytes (http.StatusText (redirect req))) :: rest.
Proof.
  intros Hf. rewrite ServeHTTP_Suppressed by done. cbv zeta.
  pose proof (received_Write (bytes (http.StatusText (redirect req)))
                (before_body r rw req)) as Hw.
  rewrite received_before_body, <- app_assoc in Hw. simpl in Hw.
  destruct (http.Write _ _) as [[n [err|]] rw']; simpl in *.
  - destruct (received_Error rw' (Error err) http.StatusInternalServerError)
      as [hdr ->].
    rewrite Hw, <- app_assoc. simpl. by eexists.
  - exists []. by rewrite Hw.
Qed.

(** C7.  For a suppressed request the first things the real writer receives
    from the middleware are the status commit 302 and the body ["Found"]
    when the method is GET, the status commit 307 and the body
    ["Temporary Redirect"] for any other method. *)
Theorem redirect_status_and_phrase r rw req :
  isFilteredCode (upstream r rw req) = true ->
  (http.Method req = "GET" ->
     exists hdr rest,
       http.received (ServeHTTP r rw req)
       = http.received (responseWriter (upstream r rw req))
         ++ http.InvWriteHeader 302 hdr :: http.InvWrite (bytes "Found") :: rest)
  /\ (http.Method req <> "GET" ->
        exists hdr rest,
          http.received (ServeHTTP r rw req)
          = http.received (responseWriter (upstream r rw req))
            ++ http.InvWriteHeader 307 hdr
               :: http.InvWrite (bytes "Temporary Redirect") :: rest).
Proof.
  intros Hf. destruct (received_ServeHTTP_Suppressed r rw req Hf) as [rest Hr].
  unfold redirect in Hr. split; intros Hm.
  - rewrite decide_True in Hr by done. by eexists _, rest.
  - rewrite decide_False in Hr by done. by eexists _, rest.
Qed.

(** C8.  For a suppressed request the status commit of the middleware is
    made on the real writer's header map in which [Location] has exactly
    one value, whatever it had before, and every other key is as the
    upstream run left it.  The value is the template with [{status}]
    replaced by the decimal captured code and [{url}] by the query-escaped
    request URL, and the empty string for an empty template. *)
Theorem redirect_location r rw req :
  isFilteredCode (upstream r rw req) = true ->
  exists (status : Z) hdr rest,
    http.received (ServeHTTP r rw req)
    = http.received (responseWriter (upstream r rw req))
      ++ http.InvWriteHeader status hdr :: rest
    /\ hdr !! "Location" =
         Some [if decide (r_to r = "") then ""
               else strings.ReplaceAll
                      (strings.ReplaceAll (r_to r) "{status}"
                         (strconv.Itoa (getCode (upstream r rw req))))
                      "{url}" (url.QueryEscape (http.URL_String req))]
    /\ forall k : string,
         k <> "Location" ->
         hdr !! k = http.header (responseWriter (upstream r rw req)) !! k.
Proof.
  intros Hf. destruct (received_ServeHTTP_Suppressed r rw req Hf) as [rest Hr].
  eexists _, _, _. split; [exact Hr|]. split.
  - by rewrite lookup_insert_eq.
  - intros k Hk. by rewrite lookup_insert_ne.
Qed.

(** C9.  For a suppressed request, when the write of the redirect body
    returns an error, [ServeHTTP] still returns, and what it has done then
    is [http.Error] with that error's message and status 500: the real
    writer receives the status commit 500 and a write of the message (with
    the line feed that [http.Error] puts after it). *)
Theorem body_write_error_gives_500 r rw req (n : Z) (err : error) rw' :
  isFilteredCode (upstream r rw req) = true ->
  http.Write (bytes (http.StatusText (redirect req))) (before_body r rw req)
    = ((n, Some err), rw') ->
  ServeHTTP r rw req = http.Error rw' (Error err) http.StatusInternalServerError
  /\ exists hdr,
       http.received (ServeHTTP r rw req)
       = http.received rw'
         ++ [http.InvWriteHeader 500 hdr;
             http.InvWrite (bytes (String.append (Error err) LF))].
Proof.
  intros Hf Hw. rewrite ServeHTTP_Suppressed by done. cbv zeta. rewrite Hw. simpl.
  split; [done|]. apply received_Error.
Qed.

End Middleware.

(** ** Further properties of the header copy and of the range loop *)

Section Copy.
Implicit Types (dst src : http.Header) (k : string).

(** X1.  Copying from an empty map leaves the destination as it is, and
    copying into an empty map gives the source. *)
Theorem copyHeaders_empty dst src :
  copyHeaders dst ∅ = dst /\ copyHeaders ∅ src = src.
Proof.
  split.
  - unfold copyHeaders. apply map_fold_empty.
  - apply map_eq. intros k. rewrite copyHeaders_lookup, lookup_empty.
    by destruct (src !! k).
Qed.

(** X2.  [copyHeaders] does not override: the keys of the result are those of
    the destination and of the source, and what the destination had under a
    key is still there, in front of what was added. *)
Theorem copyHeaders_does_not_override dst src :
  dom (copyHeaders dst src) = dom dst ∪ dom src
  /\ forall k (old : list string),
       dst !! k = Some old ->
       exists added, copyHeaders dst src !! k = Some (old ++ added)
                     /\ added = default [] (src !! k).
Proof.
  split.
  - apply set_eq. intros k.
    rewrite elem_of_union, !elem_of_dom, copyHeaders_lookup.
    destruct (src !! k), (dst !! k); simpl; split;
      try (intros [?|?]); intros; eauto; by eapply is_Some_None.
  - intros k old Hk. rewrite copyHeaders_lookup, Hk. simpl.
    destruct (src !! k) as [vv|]; simpl; [by exists vv|].
    exists []. by rewrite app_nil_r.
Qed.

(** X3.  Two copies in a row are one copy of the copied sources. *)
Theorem copyHeaders_assoc dst (a b : http.Header) :
  copyHeaders (copyHeaders dst a) b = copyHeaders dst (copyHeaders a b).
Proof.
  apply map_eq. intros k. rewrite !copyHeaders_lookup.
  destruct (a !! k) as [va|], (b !! k) as [vb|], (dst !! k) as [vd|]; simpl;
    by rewrite ?app_assoc.
Qed.

(** X4.  The range loop looks for any block that holds the code: over two
    lists of blocks one after the other it finds one when it finds one in
    either, so the order of the configured blocks does not matter. *)
Theorem watched_app (c : Z) (l1 l2 : types.HTTPCodeRanges) :
  watched c (l1 ++ l2) = watched c l1 || watched c l2
  /\ watched c (l1 ++ l2) = watched c (l2 ++ l1).
Proof.
  assert (Happ : forall l l' : types.HTTPCodeRanges,
             watched c (l ++ l') = watched c l || watched c l').
  { intros l l'. induction l as [|block l IH]; simpl; [done|].
    by destruct ((c >=? block.1) && (c <=? block.2)). }
  split; [apply Happ|]. rewrite !Happ. apply orb_comm.
Qed.

End Copy.

(** ** Further properties of the interceptor *)

Section Runs.
Context {W : Type} `{!http.Implements W}.
Implicit Types (cc : codeCatcher W) (rw : http.ResponseWriter W)
  (h : http.calls) (buf : list byte).

(** *** What every call keeps *)

Lemma WriteHeader_flags (c : Z) cc :
  headersSent cc && caughtFilteredCode cc = false ->
  headersSent (WriteHeader c cc) && caughtFilteredCode (WriteHeader c cc) = false.
Proof.
  unfold WriteHeader.
  destruct (headersSent cc) eqn:Hs, (caughtFilteredCode cc) eqn:Hc; simpl;
    try done; try (by rewrite Hs, Hc).
  destruct (watched c (httpCodeRanges cc)); simpl; by rewrite ?Hs, ?Hc.
Qed.

Lemma Write_keeps buf cc :
  headersSent cc && caughtFilteredCode cc = false ->
  headersSent (Write buf cc).2 && caughtFilteredCode (Write buf cc).2 = false
  /\ httpCodeRanges (Write buf cc).2 = httpCodeRanges cc.
Proof.
  intros Hinv. unfold Write.
  pose proof (WriteHeader_flags (code cc) cc Hinv) as Hw.
  pose proof (WriteHeader_ranges (code cc) cc) as Hr.
  destruct (caughtFilteredCode (WriteHeader (code cc) cc)) eqn:Hc.
  - simpl. rewrite Hc. done.
  - destruct (http.Write buf _) as [res rw']. simpl. by rewrite Hc.
Qed.

Lemma Flush_keeps cc :
  headersSent cc && caughtFilteredCode cc = false ->
  headersSent (Flush cc) && caughtFilteredCode (Flush cc) = false
  /\ httpCodeRanges (Flush cc) = httpCodeRanges cc.
Proof.
  intros Hinv. rewrite Flush_eq. simpl.
  split; [by apply WriteHeader_flags|apply WriteHeader_ranges].
Qed.

Lemma serve_keeps h : forall cc,
  headersSent cc && caughtFilteredCode cc = false ->
  headersSent (serve h cc) && caughtFilteredCode (serve h cc) = false
  /\ httpCodeRanges (serve h cc) = httpCodeRanges cc.
Proof.
  induction h as [|f k IH|k IH|c k IH|buf k IH|k IH]; intros cc Hinv; simpl.
  - done.
  - by apply (IH (with_headerMap (f (Header cc)) cc)).
  - by apply IH.
  - destruct (IH (WriteHeader c cc) (WriteHeader_flags c cc Hinv)) as [? ->].
    split; [done|apply WriteHeader_ranges].
  - destruct (Write_keeps buf cc Hinv) as [Hf Hr].
    destruct (Write buf cc) as [res cc']; simpl in *.
    destruct (IH res cc' Hf) as [? ->]. done.
  - destruct (Flush_keeps cc Hinv) as [Hf Hr].
    destruct (IH (Flush cc) Hf) as [? ->]. done.
Qed.

(** X5.  In every run on a new catcher the two flags are never both set, and
    the configured ranges are never changed. *)
Theorem flags_exclusive h rw (ranges : types.HTTPCodeRanges) :
  let cc := serve h (newCodeCatcher rw ranges) in
  headersSent cc && caughtFilteredCode cc = false
  /\ httpCodeRanges cc = ranges.
Proof. by apply (serve_keeps h (newCodeCatcher rw ranges)). Qed.

(** *** A run, cut at its first commit *)

Lemma serve_Write_first buf (k : Z * option error -> http.calls) cc :
  serve (http.CallWrite buf k) cc
  = serve (http.CallWrite buf k) (WriteHeader (code cc) cc)
  /\ calls_made (http.CallWrite buf k) cc
     = calls_made (http.CallWrite buf k) (WriteHeader (code cc) cc).
Proof. cbn [serve calls_made]. by rewrite <- !Write_unfold. Qed.

Lemma serve_Flush_first (k : http.calls) cc :
  serve (http.CallFlush k) cc
  = serve (http.CallFlush k) (WriteHeader (code cc) cc)
  /\ calls_made (http.CallFlush k) cc
     = calls_made (http.CallFlush k) (WriteHeader (code cc) cc).
Proof. cbn [serve calls_made]. by rewrite <- !Flush_unfold. Qed.

(** Either the run commits nothing and only changes the captured headers, or
    it is the run of some calls on the catcher that [WriteHeader] has just
    settled; in the second case the calls made are those calls, after the
    explicit [WriteHeader] if the commit was one. *)
Lemma run_cut h : forall cc,
  (first_commit h cc = None
   /\ calls_made h cc = []
   /\ exists hm, serve h cc = with_headerMap hm cc)
  \/ (exists how (C : Z) hm h' pre,
        first_commit h cc = Some (how, C)
        /\ serve h cc = serve h' (WriteHeader C (with_headerMap hm cc))
        /\ calls_made h cc
           = pre ++ calls_made h' (WriteHeader C (with_headerMap hm cc))
        /\ (pre = [] \/ pre = [MadeWriteHeader C])
        /\ calls_made h cc <> []).
Proof.
  induction h as [|f k IH|k IH|c k IH|buf k IH|k IH]; intros cc.
  - left. split; [done|]. split; [done|].
    exists (headerMap cc). by rewrite with_headerMap_same.
  - destruct (IH (with_headerMap (f (Header cc)) cc))
      as [(Hf & Hm & hm & Hs)|(how & C & hm & h' & pre & Hf & Hs & Hm & Hp & Hne)].
    + left. split; [done|]. split; [done|]. by exists hm.
    + right. by exists how, C, hm, h', pre.
  - apply IH.
  - right. exists Explicit, c, (headerMap cc), k, [MadeWriteHeader c].
    rewrite with_headerMap_same. repeat split; try done. by right.
  - right. exists Implicit, (code cc), (headerMap cc), (http.CallWrite buf k), [].
    rewrite with_headerMap_same.
    destruct (serve_Write_first buf k cc) as [Hs Hm].
    repeat split; try done. by left.
  - right. exists Implicit, (code cc), (headerMap cc), (http.CallFlush k), [].
    rewrite with_headerMap_same.
    destruct (serve_Flush_first k cc) as [Hs Hm].
    repeat split; try done. by left.
Qed.

(** X6.  A run on a new catcher ends with the catcher still [Open] exactly
    when the handler has made no [WriteHeader], [Write] or [Flush] call; the
    real writer is then untouched and the captured code is 200. *)
Theorem Open_iff_no_commit h rw (ranges : types.HTTPCodeRanges) :
  let cc := serve h (newCodeCatcher rw ranges) in
  (state cc = Open <-> calls_made h (newCodeCatcher rw ranges) = [])
  /\ (state cc = Open -> responseWriter cc = rw /\ getCode cc = 200).
Proof.
  intros cc. subst cc.
  destruct (run_cut h (newCodeCatcher rw ranges))
    as [(Hf & Hm & hm & Hs)|(how & C & hm & h' & pre & Hf & Hs & Hm & Hp & Hne)].
  - rewrite Hs, Hm. done.
  - rewrite Hs.
    set (cc1 := WriteHeader C (with_headerMap hm (newCodeCatcher rw ranges))).
    pose proof (WriteHeader_settles C
                  (with_headerMap hm (newCodeCatcher rw ranges))) as Hst.
    fold cc1 in Hst.
    destruct (serve_settled h' cc1 Hst) as (Hs' & _).
    assert (Hno : state (serve h' cc1) <> Open) by congruence.
    split; [|done]. split; done.
Qed.

(** *** What reaches the real writer *)

Lemma state_isFilteredCode cc cc' :
  state cc' = state cc -> isFilteredCode cc' = isFilteredCode cc.
Proof.
  unfold state, isFilteredCode.
  destruct (caughtFilteredCode cc), (caughtFilteredCode cc'),
    (headersSent cc), (headersSent cc'); congruence.
Qed.

Lemma forwarded_settled h : forall cc,
  state cc <> Open ->
  http.received (responseWriter (serve h cc))
  = http.received (responseWriter cc)
    ++ forwarded (isFilteredCode cc) (calls_made h cc).
Proof.
  induction h as [|f k IH|k IH|c k IH|buf k IH|k IH]; intros cc Hst;
    cbn [serve calls_made forwarded].
  - by rewrite app_nil_r.
  - by rewrite (IH (with_headerMap (f (Header cc)) cc)).
  - by apply IH.
  - rewrite WriteHeader_settled by done. by apply IH.
  - destruct (state cc) eqn:Hs; [done| |].
    + assert (Hf : isFilteredCode cc = false).
      { destruct (isFilteredCode cc) eqn:Hf; [|done].
        apply isFilteredCode_state in Hf. congruence. }
      rewrite Write_PassThrough by done. rewrite Hf.
      set (cc' := with_responseWriter (http.Write buf (responseWriter cc)).2 cc).
      assert (Hs' : state cc' = PassThrough) by done.
      rewrite IH by congruence.
      rewrite (state_isFilteredCode cc cc') by congruence. rewrite Hf.
      subst cc'. simpl. by rewrite received_Write, <- app_assoc.
    + assert (Hf : isFilteredCode cc = true) by by apply isFilteredCode_state.
      rewrite Write_Suppressed by done. rewrite Hf.
      rewrite IH by congruence. by rewrite Hf.
  - rewrite Flush_eq, WriteHeader_settled by done.
    rewrite (IH (with_responseWriter (forward_flush (responseWriter cc)) cc))
      by done.
    simpl. rewrite received_forward_flush, <- app_assoc.
    replace (isFilteredCode (with_responseWriter
                               (forward_flush (responseWriter cc)) cc))
      with (isFilteredCode cc) by done.
    by destruct http.impl_Flush.
Qed.

Lemma forwarded_pre (b : bool) (C : Z) (pre l : list made) :
  pre = [] \/ pre = [MadeWriteHeader C] ->
  forwarded b (pre ++ l) = forwarded b l
  /\ written (pre ++ l) = written l
  /\ flushed (pre ++ l) = flushed l.
Proof. by intros [->| ->]. Qed.

(** What the real writer has received after a run on an [Open] catcher:
    what it had, the status commit of the catcher if the run ends in
    [PassThrough], and what is forwarded of the calls the handler made. *)
Lemma received_run h cc :
  state cc = Open ->
  exists hdr,
    http.received (responseWriter (serve h cc))
    = http.received (responseWriter cc)
      ++ match state (serve h cc) with
         | PassThrough => [http.InvWriteHeader (getCode (serve h cc)) hdr]
         | _ => []
         end
      ++ forwarded (isFilteredCode (serve h cc)) (calls_made h cc).
Proof.
  intros Hopen.
  destruct (run_cut h cc)
    as [(Hf & Hm & hm & Hs)|(how & C & hm & h' & pre & Hf & Hs & Hm & Hp & Hne)].
  - exists ∅. rewrite Hs, Hm.
    replace (state (with_headerMap hm cc)) with Open by done.
    simpl. by rewrite app_nil_r.
  - rewrite Hs, Hm.
    set (cc0 := with_headerMap hm cc) in *.
    assert (Hopen0 : state cc0 = Open) by done.
    pose proof (WriteHeader_settles C cc0) as Hst.
    destruct (serve_settled h' _ Hst) as (Hstate & Hcode & _).
    rewrite (proj1 (forwarded_pre _ C pre _ Hp)).
    rewrite forwarded_settled by done.
    rewrite (state_isFilteredCode _ _ Hstate), Hstate.
    unfold getCode. rewrite Hcode.
    destruct (watched C (httpCodeRanges cc0)) eqn:Hw.
    + exists ∅.
      destruct (WriteHeader_caught C cc0 Hopen0 Hw) as (-> & _ & ->). done.
    + destruct (WriteHeader_sent C cc0 Hopen0 Hw) as (-> & -> & ->).
      eexists. rewrite received_WriteHeader. simpl. by rewrite <- app_assoc.
Qed.

Lemma status_commits_forwarded (b : bool) (l : list made) :
  status_commits (forwarded b l) = [].
Proof.
  induction l as [|[c|buf|] l IH]; simpl; [done|done| |].
  - by destruct b.
  - by destruct http.impl_Flush.
Qed.

Lemma body_of_app (l1 l2 : list http.invocation) :
  body_of (l1 ++ l2) = body_of l1 ++ body_of l2.
Proof.
  induction l1 as [|[c hd|buf|] l1 IH]; simpl; [done|done| |done].
  by rewrite IH, app_assoc.
Qed.

Lemma body_of_forwarded (b : bool) (l : list made) :
  body_of (forwarded b l) = if b then [] else written l.
Proof.
  induction l as [|[c|buf|] l IH]; simpl.
  - by destruct b.
  - done.
  - destruct b; simpl; [done|]. by rewrite IH.
  - by destruct http.impl_Flush.
Qed.

Lemma flushes_of_app (l1 l2 : list http.invocation) :
  flushes_of (l1 ++ l2) = (flushes_of l1 + flushes_of l2)%nat.
Proof.
  induction l1 as [|[c hd|buf|] l1 IH]; simpl; [done|done|done|].
  by rewrite IH.
Qed.

Lemma flushes_of_forwarded (b : bool) (l : list made) :
  flushes_of (forwarded b l)
  = match http.impl_Flush with Some _ => flushed l | None => 0%nat end.
Proof.
  induction l as [|[c|buf|] l IH]; simpl.
  - by destruct http.impl_Flush.
  - done.
  - by destruct b.
  - destruct http.impl_Flush; simpl; [by rewrite IH|done].
Qed.

(** X7.  In a run on a new catcher the catcher calls the real writer's
    [WriteHeader] once, with the captured code, when the run ends in
    [PassThrough], and never otherwise. *)
Theorem one_status_commit_at_most h rw (ranges : types.HTTPCodeRanges) :
  let cc := serve h (newCodeCatcher rw ranges) in
  status_commits (http.received (responseWriter cc))
  = status_commits (http.received rw)
    ++ match state cc with PassThrough => [getCode cc] | _ => [] end.
Proof.
  intros cc.
  destruct (received_run h (newCodeCatcher rw ranges) eq_refl) as [hdr Hr].
  fold cc in Hr. rewrite Hr, !status_commits_app, status_commits_forwarded.
  rewrite app_nil_r. simpl. by destruct (state cc).
Qed.

(** X8.  In a run on a new catcher that ends with the response passed
    through, the body bytes the real writer is asked to write are exactly the
    bytes the handler wrote, in order; in a run that ends with the response
    suppressed, none of them. *)
Theorem written_bytes_reach_writer h rw (ranges : types.HTTPCodeRanges) :
  let cc := serve h (newCodeCatcher rw ranges) in
  body_of (http.received (responseWriter cc))
  = body_of (http.received rw)
    ++ if isFilteredCode cc then []
       else written (calls_made h (newCodeCatcher rw ranges)).
Proof.
  intros cc.
  destruct (received_run h (newCodeCatcher rw ranges) eq_refl) as [hdr Hr].
  fold cc in Hr. rewrite Hr, !body_of_app, body_of_forwarded. simpl.
  by destruct (state cc).
Qed.

(** X9.  Every [Flush] on the catcher is forwarded to a real writer that has
    a [Flush] method, whatever the state of the catcher, [Suppressed]
    included; a real writer without the method receives none. *)
Theorem every_Flush_is_forwarded h rw (ranges : types.HTTPCodeRanges) :
  let cc := serve h (newCodeCatcher rw ranges) in
  flushes_of (http.received (responseWriter cc))
  = (flushes_of (http.received rw)
     + match http.impl_Flush with
       | Some _ => flushed (calls_made h (newCodeCatcher rw ranges))
       | None => 0
       end)%nat.
Proof.
  intros cc.
  destruct (received_run h (newCodeCatcher rw ranges) eq_refl) as [hdr Hr].
  fold cc in Hr. rewrite Hr, !flushes_of_app, flushes_of_forwarded.
  by destruct (state cc).
Qed.

(** X10.  A [Write] or a [Flush] on the catcher does what the same call does
    after an explicit [WriteHeader] with the code the catcher holds. *)
Theorem implicit_commit_is_explicit buf (k : Z * option error -> http.calls)
    (k' : http.calls) cc :
  serve (http.CallWrite buf k) cc
  = serve (http.CallWriteHeader (code cc) (http.CallWrite buf k)) cc
  /\ serve (http.CallFlush k') cc
     = serve (http.CallWriteHeader (code cc) (http.CallFlush k')) cc.
Proof.
  split.
  - apply (serve_Write_first buf k cc).
  - apply (serve_Flush_first k' cc).
Qed.

(** *** A suppressed run *)

Lemma forward_flush_None rw : http.impl_Flush = None -> forward_flush rw = rw.
Proof. intros Hn. unfold forward_flush, http.Flusher. by rewrite Hn. Qed.

Lemma Suppressed_run h : forall cc,
  state cc = Suppressed ->
  responseWriter (serve h cc)
  = Nat.iter (flushed (calls_made h cc)) forward_flush (responseWriter cc).
Proof.
  induction h as [|f k IH|k IH|c k IH|buf k IH|k IH]; intros cc Hst;
    cbn [serve calls_made flushed].
  - done.
  - by apply (IH (with_headerMap (f (Header cc)) cc)).
  - by apply IH.
  - rewrite WriteHeader_settled by congruence. by apply IH.
  - rewrite Write_Suppressed by done. by apply IH.
  - rewrite Flush_eq, WriteHeader_settled by congruence.
    rewrite (IH (with_responseWriter (forward_flush (responseWriter cc)) cc))
      by done.
    by rewrite Nat.iter_succ_r.
Qed.

Lemma suppressed_run_writer h rw (ranges : types.HTTPCodeRanges) :
  isFilteredCode (serve h (newCodeCatcher rw ranges)) = true ->
  responseWriter (serve h (newCodeCatcher rw ranges))
  = Nat.iter (flushed (calls_made h (newCodeCatcher rw ranges))) forward_flush rw.
Proof.
  intros Hf.
  destruct (run_cut h (newCodeCatcher rw ranges))
    as [(_ & _ & hm & Hs)|(how & C & hm & h' & pre & _ & Hs & Hm & Hp & _)].
  - rewrite Hs in Hf. discriminate.
  - rewrite Hs in Hf |- *. rewrite Hm.
    set (cc0 := with_headerMap hm (newCodeCatcher rw ranges)) in *.
    rewrite (proj2 (proj2 (forwarded_pre true C pre _ Hp))).
    pose proof (WriteHeader_settles C cc0) as Hst.
    destruct (serve_settled h' _ Hst) as (Hstate & _).
    apply isFilteredCode_state in Hf. rewrite Hstate in Hf.
    rewrite Suppressed_run by done.
    destruct (watched C (httpCodeRanges cc0)) eqn:Hw.
    + by destruct (WriteHeader_caught C cc0 eq_refl Hw) as (_ & _ & ->).
    + destruct (WriteHeader_sent C cc0 eq_refl Hw) as (Hp' & _). congruence.
Qed.

(** X11.  In a run on a new catcher that ends with the response suppressed,
    the real writer is the one the catcher was given, flushed once for every
    [Flush] of the handler: no header of the handler and no byte of its body
    has reached it, and without a [Flush] method it is untouched. *)
Theorem suppressed_run_only_flushes h rw (ranges : types.HTTPCodeRanges) :
  let cc := serve h (newCodeCatcher rw ranges) in
  isFilteredCode cc = true ->
  responseWriter cc
  = Nat.iter (flushed (calls_made h (newCodeCatcher rw ranges))) forward_flush rw
  /\ (http.impl_Flush = None -> responseWriter cc = rw).
Proof.
  intros cc Hf. pose proof (suppressed_run_writer h rw ranges Hf) as Hrw.
  fold cc in Hrw. split; [done|]. intros Hn. rewrite Hrw.
  generalize (flushed (calls_made h (newCodeCatcher rw ranges))). clear -Hn.
  intros n. induction n as [|n IH]; simpl; [done|].
  by rewrite IH, forward_flush_None.
Qed.

Lemma serve_flushes (n : nat) : forall cc,
  state cc = Suppressed ->
  serve (flushes n) cc
  = with_responseWriter (Nat.iter n forward_flush (responseWriter cc)) cc.
Proof.
  induction n as [|n IH]; intros cc Hst; cbn [flushes serve].
  - by destruct cc.
  - rewrite Flush_Suppressed by done.
    rewrite (IH (with_responseWriter (forward_flush (responseWriter cc)) cc))
      by done.
    cbn [responseWriter with_responseWriter]. by rewrite Nat.iter_succ_r.
Qed.

(** *** The ranges of a catcher *)

Lemma WriteHeader_with_ranges (c : Z) (ranges : types.HTTPCodeRanges) cc :
  state cc <> Open \/ watched c ranges = watched c (httpCodeRanges cc) ->
  WriteHeader c (with_httpCodeRanges ranges cc)
  = with_httpCodeRanges ranges (WriteHeader c cc).
Proof.
  unfold state, WriteHeader. cbn [headersSent caughtFilteredCode with_httpCodeRanges].
  destruct (headersSent cc), (caughtFilteredCode cc); cbn [orb]; try done.
  intros [?|Hw]; [done|].
  cbn [code httpCodeRanges with_code with_httpCodeRanges]. rewrite Hw.
  by destruct (watched c (httpCodeRanges cc)).
Qed.

Lemma Write_with_ranges buf (ranges : types.HTTPCodeRanges) cc :
  state cc <> Open \/ watched (code cc) ranges = watched (code cc) (httpCodeRanges cc) ->
  Write buf (with_httpCodeRanges ranges cc)
  = ((Write buf cc).1, with_httpCodeRanges ranges (Write buf cc).2).
Proof.
  intros Hc. unfold Write. cbn [code with_httpCodeRanges].
  rewrite WriteHeader_with_ranges by done.
  cbn [caughtFilteredCode responseWriter with_httpCodeRanges].
  destruct (caughtFilteredCode (WriteHeader (code cc) cc)); [done|].
  by destruct (http.Write buf _).
Qed.

Lemma Flush_with_ranges (ranges : types.HTTPCodeRanges) cc :
  state cc <> Open \/ watched (code cc) ranges = watched (code cc) (httpCodeRanges cc) ->
  Flush (with_httpCodeRanges ranges cc) = with_httpCodeRanges ranges (Flush cc).
Proof.
  intros Hc. unfold Flush. cbn [code with_httpCodeRanges].
  rewrite WriteHeader_with_ranges by done.
  cbn [responseWriter with_httpCodeRanges].
  by destruct (http.Flusher _).
Qed.

Lemma serve_with_ranges_settled h (ranges : types.HTTPCodeRanges) : forall cc,
  state cc <> Open ->
  serve h (with_httpCodeRanges ranges cc) = with_httpCodeRanges ranges (serve h cc).
Proof.
  induction h as [|f k IH|k IH|c k IH|buf k IH|k IH]; intros cc Hst; cbn [serve].
  - done.
  - by apply (IH (with_headerMap (f (Header cc)) cc)).
  - by apply IH.
  - rewrite WriteHeader_with_ranges by by left.
    apply IH. by rewrite WriteHeader_settled.
  - rewrite Write_with_ranges by by left.
    pose proof (Write_settled buf cc Hst) as Hw.
    destruct (Write buf cc) as [res cc']; simpl in *.
    apply IH. by eapply same_decision_settled.
  - rewrite Flush_with_ranges by by left.
    apply IH. eapply same_decision_settled; [by apply Flush_settled|done].
Qed.

Lemma serve_with_ranges h (ranges : types.HTTPCodeRanges) : forall cc,
  match first_commit h cc with
  | Some (_, C) => watched C ranges = watched C (httpCodeRanges cc)
  | None => True
  end ->
  serve h (with_httpCodeRanges ranges cc) = with_httpCodeRanges ranges (serve h cc).
Proof.
  induction h as [|f k IH|k IH|c k IH|buf k IH|k IH]; intros cc Hfc;
    cbn [serve first_commit] in *.
  - done.
  - by apply (IH (with_headerMap (f (Header cc)) cc)).
  - by apply IH.
  - rewrite WriteHeader_with_ranges by by right.
    apply serve_with_ranges_settled, WriteHeader_settles.
  - rewrite Write_with_ranges by by right.
    pose proof (Write_settles buf cc) as Hw.
    destruct (Write buf cc) as [res cc']; simpl in *.
    by apply serve_with_ranges_settled.
  - rewrite Flush_with_ranges by by right.
    apply serve_with_ranges_settled, Flush_settles.
Qed.

Lemma first_commit_with_ranges h (ranges : types.HTTPCodeRanges) : forall cc,
  first_commit h (with_httpCodeRanges ranges cc) = first_commit h cc.
Proof.
  induction h as [|f k IH|k IH|c k IH|buf k IH|k IH]; intros cc;
    cbn [first_commit]; [done| |apply IH|done..].
  apply (IH (with_headerMap (f (Header cc)) cc)).
Qed.

End Runs.

(** ** Further properties of the middleware *)

Section Responses.
Context {W : Type} `{!http.Implements W}.
Implicit Types (r : redirectStatus) (rw : http.ResponseWriter W)
  (req : http.Request) (h : http.calls).

(** The outcome of a run on a new catcher, by its first commit. *)
Lemma run_outcome h rw (ranges : types.HTTPCodeRanges) :
  let cc := serve h (newCodeCatcher rw ranges) in
  match first_commit h (newCodeCatcher rw ranges) with
  | None => isFilteredCode cc = false /\ responseWriter cc = rw
  | Some (_, C) =>
      isFilteredCode cc = watched C ranges
      /\ status_commits (http.received (responseWriter cc))
         = status_commits (http.received rw)
           ++ (if watched C ranges then [] else [C])
      /\ getCode cc = C
  end.
Proof.
  intros cc. subst cc.
  destruct (run_cut h (newCodeCatcher rw ranges))
    as [(Hf & _ & hm & Hs)|(how & C & hm & h' & pre & Hf & Hs & _)].
  - by rewrite Hf, Hs.
  - rewrite Hf, Hs.
    set (cc0 := with_headerMap hm (newCodeCatcher rw ranges)).
    pose proof (WriteHeader_settles C cc0) as Hst.
    destruct (serve_settled h' _ Hst) as (Hstate & Hcode & _ & Hrecv).
    unfold getCode.
    rewrite (state_isFilteredCode _ _ Hstate), Hrecv, Hcode.
    rewrite (WriteHeader_Open_code C cc0 eq_refl).
    change (watched C ranges) with (watched C (httpCodeRanges cc0)).
    destruct (watched C (httpCodeRanges cc0)) eqn:Hw.
    + destruct (WriteHeader_caught C cc0 eq_refl Hw) as (Hs1 & _ & ->).
      split; [by apply isFilteredCode_state|]. simpl. by rewrite app_nil_r.
    + destruct (WriteHeader_sent C cc0 eq_refl Hw) as (Hs1 & _ & ->).
      split; [|split; [|done]].
      * destruct (isFilteredCode (WriteHeader C cc0)) eqn:Hf'; [|done].
        apply isFilteredCode_state in Hf'. congruence.
      * by rewrite received_WriteHeader, status_commits_app.
Qed.

Lemma ServeHTTP_passed r rw req :
  isFilteredCode (upstream r rw req) = false ->
  ServeHTTP r rw req = responseWriter (upstream r rw req).
Proof.
  intros Hf. unfold ServeHTTP. fold (upstream r rw req). by rewrite Hf.
Qed.

(** X12.  With no range configured the middleware never redirects: no run
    is suppressed, and [ServeHTTP] leaves the real writer as the upstream
    handler's calls, passed through, have left it. *)
Theorem no_ranges_no_redirect r rw req :
  r_httpCodeRanges r = [] ->
  isFilteredCode (upstream r rw req) = false
  /\ ServeHTTP r rw req = responseWriter (upstream r rw req).
Proof.
  intros Hr.
  assert (Hf : isFilteredCode (upstream r rw req) = false).
  { unfold upstream. rewrite Hr.
    pose proof (run_outcome (r_next r req) rw []) as Ho. simpl in Ho.
    destruct (first_commit _ _) as [[how C]|]; by destruct Ho as [-> _]. }
  split; [done|]. by apply ServeHTTP_passed.
Qed.

(** X13.  The status commits the real writer receives in [ServeHTTP]: none
    when the upstream handler commits nothing, the handler's code alone when
    it is not watched, and otherwise the redirect status alone, or the
    redirect status and then 500 when the write of the redirect body
    fails; the watched code itself is not committed. *)
Theorem status_commits_of_ServeHTTP r rw req :
  status_commits (http.received (ServeHTTP r rw req))
  = status_commits (http.received rw) ++ commits_of_ServeHTTP r rw req.
Proof.
  unfold commits_of_ServeHTTP.
  pose proof (run_outcome (r_next r req) rw (r_httpCodeRanges r)) as Ho.
  simpl in Ho. fold (upstream r rw req) in Ho.
  destruct (first_commit _ _) as [[how C]|].
  - destruct Ho as (Hf & Hrecv & _).
    destruct (watched C (r_httpCodeRanges r)).
    + rewrite ServeHTTP_Suppressed by done. cbv zeta.
      pose proof (received_Write (bytes (http.StatusText (redirect req)))
                    (before_body r rw req)) as Hw.
      rewrite received_before_body in Hw.
      destruct (http.Write _ _) as [[n [err|]] rw']; simpl in *.
      * destruct (received_Error rw' (Error err) http.StatusInternalServerError)
          as [hdr ->].
        rewrite Hw, !status_commits_app, Hrecv. simpl.
        by rewrite !app_nil_r, <- app_assoc.
      * rewrite Hw, !status_commits_app, Hrecv. simpl.
        by rewrite !app_nil_r.
    + rewrite ServeHTTP_passed by done. exact Hrecv.
  - destruct Ho as [Hf Hrw]. rewrite ServeHTTP_passed by done.
    by rewrite Hrw, app_nil_r.
Qed.

(** *** A template without placeholders *)

Lemma replace_absent (c0 : Ascii.ascii) (old new s : string) :
  has_byte c0 s = false -> strings.replace 0 s (String c0 old) new = s.
Proof.
  induction s as [|c rest IH]; simpl; [done|].
  destruct (Ascii.eqb c0 c); [done|]. intros Hrest. by rewrite IH.
Qed.

Lemma location_plain r (captured : Z) req :
  has_byte "{" (r_to r) = false -> location r captured req = r_to r.
Proof.
  intros Hb. unfold location. destruct (decide (r_to r = "")) as [->|_]; [done|].
  unfold strings.ReplaceAll.
  rewrite (replace_absent "{" "status}" _ (r_to r) Hb).
  by rewrite (replace_absent "{" "url}" _ (r_to r) Hb).
Qed.

(** X14.  A template in which no [{] occurs is used as it is: for a
    suppressed request the redirect status is committed with [Location] set
    to the configured [to], whatever the captured code and the request URL
    are. *)
Theorem plain_template_is_Location r rw req :
  isFilteredCode (upstream r rw req) = true ->
  has_byte "{" (r_to r) = false ->
  exists (status : Z) hdr rest,
    http.received (ServeHTTP r rw req)
    = http.received (responseWriter (upstream r rw req))
      ++ http.InvWriteHeader status hdr :: rest
    /\ hdr !! "Location" = Some [r_to r].
Proof.
  intros Hf Hb. destruct (received_ServeHTTP_Suppressed r rw req Hf) as [rest Hr].
  eexists _, _, _. split; [exact Hr|].
  by rewrite lookup_insert_eq, location_plain.
Qed.

(** *** What the response depends on *)

(** X15.  A suppressed response keeps nothing of the upstream response but
    its status code: [ServeHTTP] gives what it gives for an upstream handler
    that only calls [WriteHeader] with that code, followed by as many
    [Flush] calls as the real handler made. *)
Theorem suppressed_response_forgets_upstream r rw req how (C : Z) :
  first_commit (r_next r req) (newCodeCatcher rw (r_httpCodeRanges r))
    = Some (how, C) ->
  watched C (r_httpCodeRanges r) = true ->
  ServeHTTP r rw req
  = ServeHTTP
      (with_next
         (fun _ =>
            http.CallWriteHeader C
              (flushes (flushed (calls_made (r_next r req)
                                   (newCodeCatcher rw (r_httpCodeRanges r))))))
         r) rw req.
Proof.
  intros Hfc Hw.
  set (n := flushed (calls_made (r_next r req)
                       (newCodeCatcher rw (r_httpCodeRanges r)))).
  set (r' := with_next (fun _ => http.CallWriteHeader C (flushes n)) r).
  pose proof (run_outcome (r_next r req) rw (r_httpCodeRanges r)) as Ho.
  simpl in Ho. rewrite Hfc, Hw in Ho. destruct Ho as (Hf & _ & Hcode).
  fold (upstream r rw req) in Hf, Hcode.
  pose proof (suppressed_run_writer _ _ _ Hf) as Hrw.
  fold (upstream r rw req) in Hrw. fold n in Hrw.
  (* the bare handler *)
  assert (Hup' : upstream r' rw req
                 = with_responseWriter (Nat.iter n forward_flush rw)
                     (WriteHeader C (newCodeCatcher rw (r_httpCodeRanges r)))).
  { unfold upstream, r'. cbn [r_next r_httpCodeRanges with_next serve].
    destruct (WriteHeader_caught C (newCodeCatcher rw (r_httpCodeRanges r))
                eq_refl Hw) as (Hs & _ & Hrw').
    rewrite serve_flushes by done. by rewrite Hrw'. }
  destruct (WriteHeader_caught C (newCodeCatcher rw (r_httpCodeRanges r))
              eq_refl Hw) as (Hs & Hc & _).
  assert (Hf' : isFilteredCode (upstream r' rw req) = true).
  { rewrite Hup'. by apply isFilteredCode_state. }
  rewrite !ServeHTTP_Suppressed by done.
  assert (Hbb : before_body r' rw req = before_body r rw req).
  { unfold before_body. rewrite Hup'. unfold location.
    cbn [responseWriter with_responseWriter getCode code r_to with_next r'].
    by rewrite Hc, Hcode, Hrw. }
  by rewrite Hbb.
Qed.

(** X16.  The configured ranges matter only through the test of the first
    committed code: with other ranges that hold that code or not as the
    configured ones do, [ServeHTTP] does the same; when the upstream handler
    commits nothing the ranges do not matter at all. *)
Theorem ranges_matter_through_first_commit r rw req
    (ranges' : types.HTTPCodeRanges) :
  match first_commit (r_next r req) (newCodeCatcher rw (r_httpCodeRanges r)) with
  | Some (_, C) => watched C ranges' = watched C (r_httpCodeRanges r)
  | None => True
  end ->
  ServeHTTP (with_ranges ranges' r) rw req = ServeHTTP r rw req.
Proof.
  intros Hfc. unfold ServeHTTP.
  cbn [r_next r_httpCodeRanges r_to with_ranges].
  change (newCodeCatcher rw ranges')
    with (with_httpCodeRanges ranges' (newCodeCatcher rw (r_httpCodeRanges r))).
  by rewrite serve_with_ranges.
Qed.

End Responses.

(** ** The code on concrete requests *)

(** [TestRedirectStatus]: the recorder ends with status 302 and
    [Location: http://localhost]; the body is ["Found"]. *)
Example TestRedirectStatus :
  let resp := ServeHTTP (scenario.plugin scenario.unauthorized)
                httptest.recorder scenario.get in
  httptest.Code (http.impl resp) = 302
  /\ httptest.snapHeader (http.impl resp) !! "Location" = Some ["http://localhost"]
  /\ httptest.Body (http.impl resp) = bytes "Found".
Proof. vm_compute. done. Qed.

(** A response outside the ranges goes through: status 200, body ["hello"],
    no [Location]. *)
Example hello_passes_through :
  let resp := ServeHTTP (scenario.plugin scenario.hello)
                httptest.recorder scenario.get in
  httptest.Code (http.impl resp) = 200
  /\ httptest.snapHeader (http.impl resp) !! "Location" = None
  /\ httptest.Body (http.impl resp) = bytes "hello".
Proof. vm_compute. done. Qed.

(** The substitution example of the spec. *)
Example template_substitution :
  strings.ReplaceAll
    (strings.ReplaceAll "http://x/{status}?u={url}" "{status}" (strconv.Itoa 403))
    "{url}" (url.QueryEscape "http://a/b?c=d")
  = "http://x/403?u=http%3A%2F%2Fa%2Fb%3Fc%3Dd".
Proof. reflexivity. Qed.

(** C3.  The claim has [Flush] do nothing toward the real writer in state
    [Suppressed].  The code forwards it: after [WriteHeader(401)] with
    401 watched, a [Flush] on the interceptor is received by the real writer.
    On the recorder that flush commits status 200, so the redirect status the
    middleware commits afterwards comes too late. *)
Example Flush_in_Suppressed_reaches_writer :
  let cc := serve (scenario.unauthorized_then_flush scenario.get)
              (newCodeCatcher httptest.recorder [(401, 403)]) in
  state cc = Suppressed
  /\ http.received (responseWriter cc) = [http.InvFlush]
  /\ httptest.wroteHeader (http.impl (responseWriter cc)) = true
  /\ httptest.Code
       (http.impl (ServeHTTP (scenario.plugin scenario.unauthorized_then_flush)
                     httptest.recorder scenario.get)) = 200.
Proof. vm_compute. done. Qed.


(** ** The theorems at concrete inputs *)

Lemma first_commit_decides_witness :
  first_commit (scenario.unauthorized scenario.get)
    (newCodeCatcher httptest.recorder [(401, 403)]) = Some (Explicit, 401)
  /\ getCode (serve (scenario.unauthorized scenario.get)
               (newCodeCatcher httptest.recorder [(401, 403)])) = 401.
Proof.
  split; [reflexivity|].
  apply (first_commit_decides (scenario.unauthorized scenario.get)
           httptest.recorder [(401, 403)] Explicit 401).
  reflexivity.
Defined.

Lemma Write_after_decision_witness :
  let sent := WriteHeader 200 (newCodeCatcher httptest.recorder [(401, 403)]) in
  let caught := WriteHeader 401 (newCodeCatcher httptest.recorder [(401, 403)]) in
  (state sent = PassThrough
   /\ http.received (responseWriter (Write (bytes "hello") sent).2)
      = http.received (responseWriter sent) ++ [http.InvWrite (bytes "hello")])
  /\ (state caught = Suppressed
      /\ Write (bytes "hello") caught = ((5, None), caught)).
Proof.
  intros sent caught. split; (split; [reflexivity|]).
  - apply (Write_after_decision (bytes "hello") sent). reflexivity.
  - apply (Write_after_decision (bytes "hello") caught). reflexivity.
Defined.


Lemma silent_handler_leaves_writer_witness :
  first_commit (scenario.headers_only scenario.get)
    (newCodeCatcher httptest.recorder [(200, 299)]) = None
  /\ ServeHTTP (scenario.watch_ok scenario.headers_only) httptest.recorder scenario.get
     = httptest.recorder.
Proof.
  split; [reflexivity|].
  apply (silent_handler_leaves_writer (scenario.watch_ok scenario.headers_only)
           httptest.recorder scenario.get).
  reflexivity.
Defined.


Lemma redirect_status_and_phrase_witness :
  (isFilteredCode (upstream (scenario.plugin scenario.unauthorized)
                     httptest.recorder scenario.get) = true
   /\ http.Method scenario.get = "GET"
   /\ exists hdr rest,
        http.received (ServeHTTP (scenario.plugin scenario.unauthorized)
                         httptest.recorder scenario.get)
        = http.received (responseWriter
                           (upstream (scenario.plugin scenario.unauthorized)
                              httptest.recorder scenario.get))
          ++ http.InvWriteHeader 302 hdr :: http.InvWrite (bytes "Found") :: rest)
  /\ (isFilteredCode (upstream (scenario.plugin scenario.unauthorized)
                        httptest.recorder scenario.post) = true
      /\ http.Method scenario.post <> "GET"
      /\ exists hdr rest,
           http.received (ServeHTTP (scenario.plugin scenario.unauthorized)
                            httptest.recorder scenario.post)
           = http.received (responseWriter
                              (upstream (scenario.plugin scenario.unauthorized)
                                 httptest.recorder scenario.post))
             ++ http.InvWriteHeader 307 hdr
                :: http.InvWrite (bytes "Temporary Redirect") :: rest).
Proof.
  split; (split; [reflexivity|]).
  - split; [reflexivity|].
    apply (redirect_status_and_phrase (scenario.plugin scenario.unauthorized)
             httptest.recorder scenario.get); reflexivity.
  - split; [discriminate|].
    apply (redirect_status_and_phrase (scenario.plugin scenario.unauthorized)
             httptest.recorder scenario.post); [reflexivity|discriminate].
Defined.

Lemma redirect_location_witness :
  isFilteredCode (upstream (scenario.templated scenario.forbidden)
                    httptest.recorder scenario.get_ab) = true
  /\ exists (status : Z) hdr rest,
       http.received (ServeHTTP (scenario.templated scenario.forbidden)
                        httptest.recorder scenario.get_ab)
       = http.received (responseWriter
                          (upstream (scenario.templated scenario.forbidden)
                             httptest.recorder scenario.get_ab))
         ++ http.InvWriteHeader status hdr :: rest
       /\ hdr !! "Location" = Some ["http://x/403?u=http%3A%2F%2Fa%2Fb%3Fc%3Dd"].
Proof.
  split; [reflexivity|].
  destruct (redirect_location (scenario.templated scenario.forbidden)
              httptest.recorder scenario.get_ab eq_refl)
    as (status & hdr & rest & Hrecv & Hloc & _).
  exists status, hdr, rest. split; [exact Hrecv|exact Hloc].
Defined.

Lemma body_write_error_gives_500_witness :
  let r := scenario.plugin scenario.unauthorized in
  let rw' := (http.Write (bytes "Found")
                (before_body r broken.writer scenario.get)).2 in
  isFilteredCode (upstream r broken.writer scenario.get) = true
  /\ http.Write (bytes (http.StatusText (redirect scenario.get)))
       (before_body r broken.writer scenario.get)
     = ((0, Some broken.EPIPE), rw')
  /\ ServeHTTP r broken.writer scenario.get
     = http.Error rw' "write: broken pipe" http.StatusInternalServerError.
Proof.
  intros r rw'. split; [reflexivity|]. split; [reflexivity|].
  apply (body_write_error_gives_500 r broken.writer scenario.get 0 broken.EPIPE rw');
    reflexivity.
Defined.

(** ** The further properties at concrete inputs *)

Lemma copyHeaders_does_not_override_witness :
  let dst : http.Header := {["Vary" := ["Origin"]]} in
  let src : http.Header := {["Vary" := ["Accept"]]} in
  dst !! "Vary" = Some ["Origin"]
  /\ exists added,
       copyHeaders dst src !! "Vary" = Some (["Origin"] ++ added)
       /\ added = default [] (src !! "Vary").
Proof.
  intros dst src. split; [reflexivity|].
  apply (proj2 (copyHeaders_does_not_override dst src) "Vary" ["Origin"]).
  reflexivity.
Defined.

Lemma suppressed_run_only_flushes_witness :
  let cc := serve (scenario.unauthorized_then_flush scenario.get)
              (newCodeCatcher broken.writer [(401, 403)]) in
  isFilteredCode cc = true
  /\ http.impl_Flush (W := broken.conn) = None
  /\ responseWriter cc = broken.writer.
Proof.
  intros cc. split; [reflexivity|]. split; [reflexivity|].
  apply (suppressed_run_only_flushes
           (scenario.unauthorized_then_flush scenario.get)
           broken.writer [(401, 403)]); reflexivity.
Defined.

Lemma no_ranges_no_redirect_witness :
  let r := with_ranges [] (scenario.plugin scenario.unauthorized) in
  r_httpCodeRanges r = []
  /\ isFilteredCode (upstream r httptest.recorder scenario.get) = false
  /\ ServeHTTP r httptest.recorder scenario.get
     = responseWriter (upstream r httptest.recorder scenario.get).
Proof.
  intros r. split; [reflexivity|].
  apply (no_ranges_no_redirect r httptest.recorder scenario.get). reflexivity.
Defined.

Lemma plain_template_is_Location_witness :
  let r := scenario.plugin scenario.unauthorized in
  isFilteredCode (upstream r httptest.recorder scenario.get) = true
  /\ has_byte "{" (r_to r) = false
  /\ exists (status : Z) hdr rest,
       http.received (ServeHTTP r httptest.recorder scenario.get)
       = http.received (responseWriter (upstream r httptest.recorder scenario.get))
         ++ http.InvWriteHeader status hdr :: rest
       /\ hdr !! "Location" = Some ["http://localhost"].
Proof.
  intros r. split; [reflexivity|]. split; [reflexivity|].
  apply (plain_template_is_Location r httptest.recorder scenario.get);
    reflexivity.
Defined.

Lemma suppressed_response_forgets_upstream_witness :
  let r := scenario.plugin scenario.unauthorized_then_flush in
  first_commit (r_next r scenario.get)
    (newCodeCatcher httptest.recorder (r_httpCodeRanges r)) = Some (Explicit, 401)
  /\ watched 401 (r_httpCodeRanges r) = true
  /\ ServeHTTP r httptest.recorder scenario.get
     = ServeHTTP
         (with_next (fun _ => http.CallWriteHeader 401 (flushes 1)) r)
         httptest.recorder scenario.get.
Proof.
  intros r. split; [reflexivity|]. split; [reflexivity|].
  apply (suppressed_response_forgets_upstream r httptest.recorder scenario.get
           Explicit 401); reflexivity.
Defined.

Lemma ranges_matter_through_first_commit_witness :
  let r := scenario.plugin scenario.unauthorized in
  watched 401 [(400, 499)] = watched 401 (r_httpCodeRanges r)
  /\ ServeHTTP (with_ranges [(400, 499)] r) httptest.recorder scenario.get
     = ServeHTTP r httptest.recorder scenario.get.
Proof.
  intros r. split; [reflexivity|].
  apply (ranges_matter_through_first_commit r httptest.recorder scenario.get
           [(400, 499)]).
  reflexivity.
Defined.
